(** * The cache controller of httpx-caching: a shallow embedding

    Source: [src/cachecontrol/controller.py], class [CacheController].

    Conventions of the embedding.
    - A Python [str] is a [string]; one [ascii] stands for one code point
      below 256.  A Python [bytes] is a [list Byte.byte].
    - Python integers are [Z]; the clock reading of [time.time()] is a
      rational [Q] handed to the function as an argument.
    - A [dict] is a [gmap]; the directive set returned by
      [parse_cache_control] maps a directive name to [None] (a flag) or
      [Some n].
    - The controller mutates its backend: operations are functions from
      the backend state to a new state and an [outcome], which is a
      returned value or a raised exception. *)

From Stdlib Require Import ZArith QArith Lqa Ascii String.
From stdpp Require Import gmap strings list fin_maps.

Local Open Scope string_scope.
Local Open Scope list_scope.
Local Open Scope Z_scope.

(** ** Python strings *)

Module PyStr.

Definition code (a : ascii) : Z := Z.of_N (Ascii.N_of_ascii a).

(** [str.isspace] on one code point below 256. *)
Definition is_space (a : ascii) : bool :=
  let n := code a in
  ((9 <=? n) && (n <=? 13)) || ((28 <=? n) && (n <=? 32))
  || (n =? 133) || (n =? 160).

Fixpoint lstrip (s : string) : string :=
  match s with
  | EmptyString => EmptyString
  | String a s' => if is_space a then lstrip s' else s
  end.

Fixpoint rstrip (s : string) : string :=
  match s with
  | EmptyString => EmptyString
  | String a s' =>
      match rstrip s' with
      | EmptyString => if is_space a then EmptyString else String a EmptyString
      | r => String a r
      end
  end.

(** [s.strip()] *)
Definition strip (s : string) : string := rstrip (lstrip s).

(** [s.split(sep)] for a one-character separator: never the empty list. *)
Fixpoint split (sep : ascii) (s : string) : list string :=
  match s with
  | EmptyString => [EmptyString]
  | String a s' =>
      if Ascii.eqb a sep then EmptyString :: split sep s'
      else match split sep s' with
           | x :: xs => String a x :: xs
           | [] => [String a EmptyString]
           end
  end.

(** [s.split(sep, 1)]: [parts[0]] and, when the separator occurs,
    [parts[1]]. *)
Fixpoint split1 (sep : ascii) (s : string) : string * option string :=
  match s with
  | EmptyString => (EmptyString, None)
  | String a s' =>
      if Ascii.eqb a sep then (EmptyString, Some s')
      else let (h, t) := split1 sep s' in (String a h, t)
  end.

(** [sub in s] for a one-character [sub]. *)
Fixpoint contains (c : ascii) (s : string) : bool :=
  match s with
  | EmptyString => false
  | String a s' => Ascii.eqb a c || contains c s'
  end.

Definition lower_char (a : ascii) : ascii :=
  let n := code a in
  if ((65 <=? n) && (n <=? 90))
     || ((192 <=? n) && (n <=? 222) && negb (n =? 215))
  then Ascii.ascii_of_N (Z.to_N (n + 32)) else a.

(** [s.lower()] *)
Fixpoint lower (s : string) : string :=
  match s with
  | EmptyString => EmptyString
  | String a s' => String (lower_char a) (lower s')
  end.

Definition is_decimal (a : ascii) : bool :=
  let n := code a in (48 <=? n) && (n <=? 57).

Definition digit_val (a : ascii) : Z := code a - 48.

(** [str.isdigit] on one code point: the decimal digits and the
    superscripts 2, 3 and 1. *)
Definition is_digit_char (a : ascii) : bool :=
  let n := code a in
  is_decimal a || (n =? 178) || (n =? 179) || (n =? 185).

(** [s.isdigit()] *)
Definition isdigit (s : string) : bool :=
  match s with
  | EmptyString => false
  | _ => forallb is_digit_char (list_ascii_of_string s)
  end.

(** The digits of a decimal literal after its first digit: digits with
    single underscores between them. *)
Fixpoint int_digits (after_underscore : bool) (acc : Z) (s : string)
  : option Z :=
  match s with
  | EmptyString => if after_underscore then None else Some acc
  | String a s' =>
      if is_decimal a then int_digits false (10 * acc + digit_val a) s'
      else if Ascii.eqb a "_"
           then if after_underscore then None else int_digits true acc s'
           else None
  end.

Definition int_unsigned (s : string) : option Z :=
  match s with
  | String a s' =>
      if is_decimal a then int_digits false (digit_val a) s' else None
  | EmptyString => None
  end.

(** The white space [int] skips around the literal. *)
Definition int_space (a : ascii) : bool :=
  let n := code a in
  ((9 <=? n) && (n <=? 13)) || (n =? 32) || (n =? 133) || (n =? 160).

Fixpoint int_lskip (s : string) : string :=
  match s with
  | EmptyString => EmptyString
  | String a s' => if int_space a then int_lskip s' else s
  end.

Fixpoint int_rskip (s : string) : string :=
  match s with
  | EmptyString => EmptyString
  | String a s' =>
      match int_rskip s' with
      | EmptyString => if int_space a then EmptyString else String a EmptyString
      | r => String a r
      end
  end.

(** [int(s)] in base 10; [None] stands for [ValueError].  (The limit
    on the number of digits of recent interpreters is not modelled.) *)
Definition int (s : string) : option Z :=
  match int_rskip (int_lskip s) with
  | String "-" r => Z.opp <$> int_unsigned r
  | String "+" r => int_unsigned r
  | r => int_unsigned r
  end.

(** Truth value of a string: non-empty. *)
Definition truthy (s : string) : bool :=
  match s with EmptyString => false | _ => true end.

End PyStr.

(** ** Cache-Control directives *)

Inductive pytype := PyInt.

(** [known_directives]: directive name, its value type, whether the
    value is required. *)
Definition known_directives : list (string * (option pytype * bool)) :=
  [ ("max-age", (Some PyInt, true));
    ("max-stale", (Some PyInt, false));
    ("min-fresh", (Some PyInt, true));
    ("no-cache", (None, false));
    ("no-store", (None, false));
    ("no-transform", (None, false));
    ("only-if-cached", (None, false));
    ("must-revalidate", (None, false));
    ("public", (None, false));
    ("private", (None, false));
    ("proxy-revalidate", (None, false));
    ("s-maxage", (Some PyInt, true)) ].

(** [known_directives[directive]]; [None] stands for [KeyError]. *)
Fixpoint directive_lookup (tbl : list (string * (option pytype * bool)))
  (d : string) : option (option pytype * bool) :=
  match tbl with
  | [] => None
  | (k, v) :: tbl' => if String.eqb k d then Some v else directive_lookup tbl' d
  end.

(** Modelled from the spec: the header sets.  The class of the header
    objects the controller is given is not among the sources; the spec
    gives a case-insensitive mapping from header name to value, held
    here under lower-cased names. *)
Definition hget (h : gmap string string) (name : string) : option string :=
  h !! PyStr.lower name.

Definition hmem (name : string) (h : gmap string string) : bool :=
  bool_decide (is_Some (hget h name)).

(** [headers.get(name, default)] *)
Definition hget_default (h : gmap string string) (name dflt : string)
  : string :=
  default dflt (hget h name).

(** One turn of the loop of [parse_cache_control] over the pieces of the
    header value. *)
Definition cc_step (retval : gmap string (option Z)) (cc_directive : string)
  : gmap string (option Z) :=
  if negb (PyStr.truthy (PyStr.strip cc_directive)) then retval
  else
    let parts := PyStr.split1 "=" cc_directive in
    let directive := PyStr.strip (fst parts) in
    match directive_lookup known_directives directive with
    | None => retval                                     (* KeyError *)
    | Some (typ, required) =>
        let retval :=
          if negb (bool_decide (is_Some typ)) || negb required
          then <[directive := None]> retval else retval in
        match typ with
        | None => retval
        | Some PyInt =>
            match snd parts with
            | None => retval                             (* IndexError *)
            | Some v =>
                match PyStr.int (PyStr.strip v) with
                | Some n => <[directive := Some n]> retval
                | None => retval                         (* ValueError *)
                end
            end
        end
    end.

Definition parse_directives (pieces : list string) : gmap string (option Z) :=
  foldl cc_step ∅ pieces.

Definition parse_cache_control (headers : gmap string string)
  : gmap string (option Z) :=
  let cc_headers := hget_default headers "cache-control" "" in
  parse_directives (PyStr.split "," cc_headers).

(** Headers built from a list of fields, as a case-insensitive mapping
    is built: each name is lower-cased; a later field of the same name
    replaces an earlier one. *)
Definition headers_of (l : list (string * string)) : gmap string string :=
  foldl (fun h kv => <[PyStr.lower (fst kv) := snd kv]> h) ∅ l.

(** [h[name]]; a missing name raises [KeyError]. *)
Inductive exn :=
| Exception (msg : string)
| NameError (name : string)
| KeyError (key : string)
| TypeError
| ValueError.

Inductive outcome (A : Type) :=
| Returned (a : A)
| Raised (e : exn).
Arguments Returned {A} a.
Arguments Raised {A} e.

#[global] Instance outcome_ret : MRet outcome := fun A a => Returned a.

#[global] Instance outcome_bind : MBind outcome := fun A B f o =>
  match o with
  | Returned a => f a
  | Raised e => Raised e
  end.

Definition hitem (h : gmap string string) (name : string) : outcome string :=
  match hget h name with
  | Some v => Returned v
  | None => Raised (KeyError name)
  end.

(** Truth value of a mapping: non-empty. *)
Definition headers_truthy (h : gmap string string) : bool :=
  negb (bool_decide (h = ∅)).

(** [headers.items()] *)
Definition hitems (h : gmap string string) : list (string * string) :=
  map_to_list h.

(** [headers.update(d)]: every item of [d] is set under its lower-cased
    name. *)
Definition hupdate (h : gmap string string) (d : list (string * string))
  : gmap string string :=
  foldl (fun m kv => <[PyStr.lower (fst kv) := snd kv]> m) h d.

(** Evaluation of a name in a function body: [bound] lists the names the
    function binds (parameters and locals) and the globals of the module
    ([logging], [calendar], [time], [parsedate_tz], [DictCache],
    [Serializer], [logger], [PERMANENT_REDIRECT_STATUSES],
    [CacheController]) that hold a value of type [A]; any other name
    raises [NameError]. *)
Fixpoint load_name {A : Type} (bound : list (string * A)) (name : string)
  : outcome A :=
  match bound with
  | [] => Raised (NameError name)
  | (k, v) :: bound' =>
      if String.eqb k name then Returned v else load_name bound' name
  end.

(** ** URLs and the cache key *)

Record URL := { scheme : string; authority : string; url_str : string }.

Definition cache_url (uri : URL) : outcome string :=
  if negb (PyStr.truthy (scheme uri)) || negb (PyStr.truthy (authority uri))
  then Raised (Exception
                 (String.append "Only absolute URIs are allowed. uri = "
                    (url_str uri)))
  else Returned (url_str uri).

(** ** The backend *)

Abbreviation bytes := (list Byte.byte).

(** Modelled from the spec: the storage backend.  The class [DictCache]
    of module [cache] is not among the sources; the spec gives its
    interface, [get(key) -> bytes|absent], [set(key, value)] and
    [delete(key)], over an in-memory map. *)
Definition cache_get (cache : gmap string bytes) (key : string)
  : option bytes := cache !! key.

Definition cache_set (key : string) (value : bytes) (cache : gmap string bytes)
  : gmap string bytes := <[key := value]> cache.

Definition cache_delete (key : string) (cache : gmap string bytes)
  : gmap string bytes := delete key cache.

(** Truth value of the result of [cache.get]: neither [None] nor empty. *)
Definition data_truthy (d : option bytes) : bool :=
  match d with
  | Some (_ :: _) => true
  | _ => false
  end.

Definition PERMANENT_REDIRECT_STATUSES : list Z := [301; 308].

Definition status_in (code : Z) (codes : list Z) : bool :=
  bool_decide (code ∈ codes).

(** [name in cc] *)
Definition cc_has (name : string) (cc : gmap string (option Z)) : bool :=
  bool_decide (is_Some (cc !! name)).

(** [max(0, x)] for a clock difference. *)
Definition qmax0 (x : Q) : Q := if Qle_bool x 0 then 0%Q else x.

(** [a > b] for an integer [a] and a clock difference [b]. *)
Definition gt_age (a : Z) (b : Q) : bool := negb (Qle_bool (inject_Z a) b).

(** Sequencing for operations on the backend: an exception leaves with
    the backend as it is at that point. *)
Notation "'try' x ':=' e 'in' cache ';' k" :=
  (match e with
   | Returned x => k
   | Raised err => (cache, Raised err)
   end)
  (at level 10, x name, e at level 100, cache at level 0,
   k at level 200, only parsing).

Record CacheController := {
  cache_etags : bool;
  cacheable_status_codes : list Z
}.

(** [CacheController.__init__]: [status_codes or (200, 203, 300, 301, 308)]. *)
Definition init (etags : bool) (status_codes : option (list Z))
  : CacheController :=
  {| cache_etags := etags;
     cacheable_status_codes :=
       match status_codes with
       | Some (c :: cs) => c :: cs
       | _ => [200; 203; 300; 301; 308]
       end |}.

(** ** The controller *)

Section Controller.

(** The body of a stored response is a stream; [read] gives its bytes
    and the stream as reading leaves it. *)
Variable Stream : Type.
Variable read : Stream -> bytes * Stream.

(** A deserialized entry: the five fields that
    [update_cached_response] unpacks, with the attribute names that
    [cached_request] and [conditional_headers] use. *)
Record Response := {
  http_version : string;
  status : Z;
  reason_phrase : string;
  headers : gmap string string;
  body : Stream
}.

(** The serializer (module [serialize], not among the sources):
    [loads(request_headers, data)] gives the entry or [None];
    [dumps(request_headers, response_headers, status, http_version,
    reason, body)] gives the stored bytes. *)
Variable loads : gmap string string -> option bytes -> option Response.
Variable dumps : gmap string string -> gmap string string -> Z -> string ->
                 string -> option bytes -> bytes.

(** [email.utils.parsedate_tz] and [calendar.timegm]. *)
Variable DateTuple : Type.
Variable parsedate_tz : string -> option DateTuple.
Variable timegm : DateTuple -> Z.

(** [calendar.timegm(parsedate_tz(s))]: [timegm] raises [TypeError] on
    [None]. *)
Definition epoch_of (s : string) : outcome Z :=
  match parsedate_tz s with
  | Some t => Returned (timegm t)
  | None => Raised TypeError
  end.

(** Lines 161-183 of [cached_request]: the freshness lifetime, from the
    directives [resp_cc], the headers the function reads [expires]
    from, the epoch [date] and the request directives [cc]. *)
Definition freshness_lifetime (request_headers : gmap string string)
  (date : Z) (cc resp_cc : gmap string (option Z)) : outcome (option Z) :=
  let freshness_lifetime := Some 0 in
  freshness_lifetime ←
    (if cc_has "max-age" resp_cc
     then Returned (default None (resp_cc !! "max-age"))
     else if hmem "expires" request_headers
     then
       e ← hitem request_headers "expires";
       let expires := parsedate_tz e in
       match expires with
       | Some t =>
           let expire_time := timegm t - date in
           Returned (Some (Z.max 0 expire_time))
       | None => Returned freshness_lifetime
       end
     else Returned freshness_lifetime);
  if cc_has "max-age" cc
  then Returned (default None (cc !! "max-age"))
  else Returned freshness_lifetime.

(** Lines 185-189: [current_age += min_fresh]; adding [None] raises
    [TypeError]. *)
Definition adjust_age (cc : gmap string (option Z)) (current_age : Q)
  : outcome Q :=
  if cc_has "min-fresh" cc
  then match default None (cc !! "min-fresh") with
       | Some min_fresh => Returned (current_age + inject_Z min_fresh)%Q
       | None => Raised TypeError
       end
  else Returned current_age.

(** [freshness_lifetime > current_age]; comparing [None] raises
    [TypeError]. *)
Definition is_fresh (freshness_lifetime : option Z) (current_age : Q)
  : outcome bool :=
  match freshness_lifetime with
  | Some f => Returned (gt_age f current_age)
  | None => Raised TypeError
  end.

Definition cached_request (self : CacheController) (request_url : URL)
  (request_headers : gmap string string) (now : Q)
  (cache : gmap string bytes)
  : gmap string bytes * outcome (option Response) :=
  try cache_url := cache_url request_url in cache;
  let cc := parse_cache_control request_headers in
  if cc_has "no-cache" cc then (cache, Returned None)
  else if cc_has "max-age" cc && bool_decide (cc !! "max-age" = Some (Some 0))
  then (cache, Returned None)
  else
    match cache_get cache cache_url with
    | None => (cache, Returned None)
    | Some cache_data =>
        match loads request_headers (Some cache_data) with
        | None => (cache, Returned None)
        | Some resp =>
            if status_in (status resp) PERMANENT_REDIRECT_STATUSES
            then (cache, Returned (Some resp))
            else if negb (headers_truthy request_headers)
                    || negb (hmem "date" request_headers)
            then
              let cache :=
                if negb (hmem "etag" request_headers)
                then cache_delete cache_url cache else cache in
              (cache, Returned None)
            else
              try date := (d ← hitem request_headers "date"; epoch_of d)
                in cache;
              let current_age := qmax0 (now - inject_Z date) in
              let resp_cc := parse_cache_control request_headers in
              try freshness_lifetime :=
                freshness_lifetime request_headers date cc resp_cc in cache;
              try current_age := adjust_age cc current_age in cache;
              try fresh := is_fresh freshness_lifetime current_age in cache;
              if fresh then (cache, Returned (Some resp))
              else
                let cache :=
                  if negb (hmem "etag" request_headers)
                  then cache_delete cache_url cache else cache in
                (cache, Returned None)
        end
    end.

(** In [conditional_headers] the name [request_headers] is read, but
    the function binds only [self], [request_url], [cache_url], and
    no global of the module has that name. *)
Definition conditional_headers_bound : list (string * gmap string string) :=
  [].

Definition conditional_headers (self : CacheController) (request_url : URL)
  (cache : gmap string bytes)
  : gmap string bytes * outcome (gmap string string) :=
  try cache_url := cache_url request_url in cache;
  try request_headers :=
    load_name conditional_headers_bound "request_headers" in cache;
  let resp := loads request_headers (cache_get cache cache_url) in
  let new_headers : gmap string string := ∅ in
  match resp with
  | Some resp =>
      let headers := headers resp in
      try new_headers :=
        (if hmem "etag" headers
         then v ← hitem headers "ETag";
              Returned (<["If-None-Match" := v]> new_headers)
         else Returned new_headers) in cache;
      try new_headers :=
        (if hmem "last-modified" headers
         then v ← hitem headers "Last-Modified";
              Returned (<["If-Modified-Since" := v]> new_headers)
         else Returned new_headers) in cache;
      (cache, Returned new_headers)
  | None => (cache, Returned new_headers)
  end.

(** Lines 246-252 of [cache_response]: does the declared length
    disagree with the body? *)
Definition content_length_differs (response_body : option bytes)
  (response_headers : gmap string string) : outcome bool :=
  match response_body with
  | None => Returned false
  | Some b =>
      if hmem "content-length" response_headers
      then
        v ← hitem response_headers "content-length";
        if PyStr.isdigit v
        then match PyStr.int v with
             | Some n => Returned (negb (n =? Z.of_nat (length b)))
             | None => Raised ValueError
             end
        else Returned false
      else Returned false
  end.

(** ["max-age" in cc and cc["max-age"] > 0]; comparing [None] raises
    [TypeError]. *)
Definition max_age_positive (cc : gmap string (option Z)) : outcome bool :=
  if cc_has "max-age" cc
  then match default None (cc !! "max-age") with
       | Some n => Returned (n >? 0)
       | None => Raised TypeError
       end
  else Returned false.

(** In [cache_response] the first [logger.debug] call reads
    [response.status]; the function binds no name [response]. *)
Definition cache_response_bound : list (string * Response) := [].

Definition cache_response (self : CacheController) (request_url : URL)
  (request_headers response_headers : gmap string string)
  (response_status_code : Z) (response_reason_phrase : string)
  (response_http_version : string) (response_body : option bytes)
  (cache : gmap string bytes) : gmap string bytes * outcome unit :=
  if negb (status_in response_status_code (cacheable_status_codes self))
  then
    try response := load_name cache_response_bound "response" in cache;
    (cache, Returned tt)
  else
    try differs :=
      content_length_differs response_body response_headers in cache;
    if differs then (cache, Returned tt)
    else
      let cc_req := parse_cache_control request_headers in
      let cc := parse_cache_control response_headers in
      try cache_url := cache_url request_url in cache;
      let no_store := false in
      let no_store := if cc_has "no-store" cc then true else no_store in
      let no_store := if cc_has "no-store" cc_req then true else no_store in
      let cache :=
        if no_store && data_truthy (cache_get cache cache_url)
        then cache_delete cache_url cache else cache in
      if no_store then (cache, Returned tt)
      else if PyStr.contains "*" (hget_default response_headers "vary" "")
      then (cache, Returned tt)
      else
        (* the one [self.cache.set] that ends the function *)
        let store (response_body : option bytes) :=
          (cache_set cache_url
             (dumps request_headers response_headers response_status_code
                response_http_version response_reason_phrase response_body)
             cache, Returned tt) in
        if cache_etags self && hmem "etag" response_headers
        then store response_body
        else if status_in response_status_code PERMANENT_REDIRECT_STATUSES
        then store (Some [])
        else if hmem "date" response_headers
        then
          try positive := max_age_positive cc in cache;
          if positive then store response_body
          else if hmem "expires" response_headers
          then
            (* [if response_headers["expires"]:] guards a log call only *)
            try expires := hitem response_headers "expires" in cache;
            store response_body
          else (cache, Returned tt)
        else (cache, Returned tt).

Definition excluded_headers : list string := ["content-length"].

Definition update_cached_response (self : CacheController)
  (request_url : URL) (request_headers response_headers : gmap string string)
  (cache : gmap string bytes)
  : gmap string bytes * outcome (option Response) :=
  try cache_url := cache_url request_url in cache;
  let cached_response := loads request_headers (cache_get cache cache_url) in
  match cached_response with
  | None => (cache, Returned None)
  | Some cached_response =>
      let cached_http_version := http_version cached_response in
      let cached_reason_phrase := reason_phrase cached_response in
      let cached_headers := headers cached_response in
      let cached_body := body cached_response in
      let cached_headers :=
        hupdate cached_headers
          (filter (fun kv => PyStr.lower (fst kv) ∉ excluded_headers)
             (hitems response_headers)) in
      let cached_status_code := 200 in
      let (body, cached_body) := read cached_body in
      (cache_set cache_url
         (dumps request_headers cached_headers cached_status_code
            cached_http_version cached_reason_phrase (Some body)) cache,
       Returned (Some {| http_version := cached_http_version;
                         status := cached_status_code;
                         reason_phrase := cached_reason_phrase;
                         headers := cached_headers;
                         body := cached_body |}))
  end.

End Controller.

(** ** A sample instantiation

    A line-based serializer, in-memory body streams and a parser of the
    fixed-length HTTP date format, to run the controller on concrete
    requests and responses. *)

Module Sample.

Definition Stream : Type := bytes.

(** Reading gives all the bytes and leaves the stream at its end. *)
Definition read (b : Stream) : bytes * Stream := (b, []).

Definition newline : ascii := Ascii.ascii_of_nat 10.

Definition byte_of_Z (n : Z) : Byte.byte :=
  byte_of_ascii (Ascii.ascii_of_N (Z.to_N n)).

Definition Z_of_byte (b : Byte.byte) : Z := PyStr.code (ascii_of_byte b).

Fixpoint take_line (s : string) : string * string :=
  match s with
  | EmptyString => (EmptyString, EmptyString)
  | String a s' =>
      if Ascii.eqb a newline then (EmptyString, s')
      else let (l, r) := take_line s' in (String a l, r)
  end.

Fixpoint parse_fields (fuel : nat) (s : string) (h : gmap string string)
  : option (gmap string string * string) :=
  match fuel with
  | O => None
  | S fuel' =>
      let (line, rest) := take_line s in
      match line with
      | EmptyString => Some (h, rest)
      | _ =>
          match PyStr.split1 ":" line with
          | (k, Some v) => parse_fields fuel' rest (<[PyStr.lower k := v]> h)
          | _ => None
          end
      end
  end.

(** The stored bytes: two bytes of status, a line for the version, a
    line for the reason, a line [name:value] for each header, an empty
    line, the body. *)
Definition dumps (request_headers response_headers : gmap string string)
  (status : Z) (http_version reason : string) (body : option bytes)
  : bytes :=
  let line (s : string) := String.append s (String newline EmptyString) in
  let fields :=
    foldr String.append EmptyString
      ((fun kv => line (String.append (fst kv) (String ":" (snd kv))))
         <$> map_to_list response_headers) in
  byte_of_Z (status / 256) :: byte_of_Z (status mod 256)
    :: list_byte_of_string
         (String.append (line http_version)
            (String.append (line reason) (line fields)))
    ++ default [] body.

Definition loads (request_headers : gmap string string)
  (data : option bytes) : option (Response Stream) :=
  match data with
  | Some (hi :: lo :: rest) =>
      let s := string_of_list_byte rest in
      let (version, s) := take_line s in
      let (reason, s) := take_line s in
      '(h, b) ← parse_fields (S (String.length s)) s ∅;
      Some {| http_version := version;
              status := Z_of_byte hi * 256 + Z_of_byte lo;
              reason_phrase := reason;
              headers := h;
              body := list_byte_of_string b |}
  | _ => None
  end.

Definition DateTuple : Type := Z * Z * Z * Z * Z * Z.

Definition month_names : list string :=
  ["Jan"; "Feb"; "Mar"; "Apr"; "May"; "Jun";
   "Jul"; "Aug"; "Sep"; "Oct"; "Nov"; "Dec"].

Fixpoint month_index (names : list string) (i : Z) (s : string) : option Z :=
  match names with
  | [] => None
  | n :: names' => if String.eqb n s then Some i else month_index names' (i + 1) s
  end.

(** Dates of the form [Thu, 01 Jan 1970 00:00:00 GMT]. *)
Definition parsedate_tz (s : string) : option DateTuple :=
  if (String.length s =? 29)%nat
  then
    d ← PyStr.int_unsigned (String.substring 5 2 s);
    mo ← month_index month_names 1 (String.substring 8 3 s);
    y ← PyStr.int_unsigned (String.substring 12 4 s);
    hh ← PyStr.int_unsigned (String.substring 17 2 s);
    mm ← PyStr.int_unsigned (String.substring 20 2 s);
    ss ← PyStr.int_unsigned (String.substring 23 2 s);
    Some (y, mo, d, hh, mm, ss)
  else None.

Definition is_leap (y : Z) : bool :=
  (y mod 4 =? 0) && (negb (y mod 100 =? 0) || (y mod 400 =? 0)).

Definition days_before_year (y : Z) : Z :=
  let y := y - 1 in y * 365 + y / 4 - y / 100 + y / 400.

Definition days_before_month (y m : Z) : Z :=
  nth (Z.to_nat (m - 1))
    [0; 31; 59; 90; 120; 151; 181; 212; 243; 273; 304; 334] 0
  + (if (m >? 2) && is_leap y then 1 else 0).

Definition ordinal (y m d : Z) : Z :=
  days_before_year y + days_before_month y m + d.

Definition timegm (t : DateTuple) : Z :=
  let '(y, mo, d, hh, mm, ss) := t in
  let days := ordinal y mo 1 - 719163 + d - 1 in
  ((days * 24 + hh) * 60 + mm) * 60 + ss.

Definition cached_request :=
  cached_request Stream loads DateTuple parsedate_tz timegm.
Definition conditional_headers := conditional_headers Stream loads.
Definition cache_response := cache_response Stream dumps.
Definition update_cached_response :=
  update_cached_response Stream read loads dumps.

Definition url (s : string) : URL :=
  {| scheme := "http"; authority := "example.com"; url_str := s |}.

End Sample.

(** ** Vocabulary of the statements *)

(** A piece is blank when every character is white space. *)
Fixpoint blank (s : string) : bool :=
  match s with
  | EmptyString => true
  | String a s' => PyStr.is_space a && blank s'
  end.

(** The name and the value a piece of the header carries, as the loop
    computes them. *)
Definition directive_of (piece : string) : string :=
  PyStr.strip (fst (PyStr.split1 "=" piece)).

Definition value_of (piece : string) : option Z :=
  v ← snd (PyStr.split1 "=" piece); PyStr.int (PyStr.strip v).

Definition kind_of (piece : string) : option (option pytype * bool) :=
  directive_lookup known_directives (directive_of piece).

(** The request is one that lets the lookup reach the backend: no
    [no-cache] and no [max-age=0] among its directives. *)
Definition allows_cache (request_headers : gmap string string) : Prop :=
  let cc := parse_cache_control request_headers in
  cc_has "no-cache" cc = false ∧ cc !! "max-age" ≠ Some (Some 0).

(** The call has reached the store decision: the status is cacheable,
    the declared length agrees with the body, the URL is absolute,
    neither side says [no-store], and [Vary] has no [*]. *)
Record passes_checks (self : CacheController) (request_url : URL)
  (request_headers response_headers : gmap string string)
  (response_status_code : Z) (response_body : option bytes)
  (key : string) : Prop := {
  pc_status : response_status_code ∈ cacheable_status_codes self;
  pc_length :
    content_length_differs response_body response_headers = Returned false;
  pc_url : cache_url request_url = Returned key;
  pc_no_store_request :
    cc_has "no-store" (parse_cache_control request_headers) = false;
  pc_no_store_response :
    cc_has "no-store" (parse_cache_control response_headers) = false;
  pc_vary :
    PyStr.contains "*" (hget_default response_headers "vary" "") = false
}.

(** The names of a header set are lower-cased, as those of a
    case-insensitive mapping are. *)
Definition normalized (h : gmap string string) : Prop :=
  ∀ k, is_Some (h !! k) → PyStr.lower k = k.

(** The headers [update_cached_response] computes. *)
Definition merged_headers (cached response_headers : gmap string string)
  : gmap string string :=
  hupdate cached
    (filter (fun kv => PyStr.lower (fst kv) ∉ excluded_headers)
       (hitems response_headers)).

(** ** Concrete exchanges *)

Module Examples.

Import Sample.

Definition controller : CacheController := init true None.

Definition page : URL := url "http://example.com/page".
Definition page_key : string := "http://example.com/page".

(** 3 November 2026, 22:08:00 GMT: 1793743680 seconds after the epoch. *)
Definition T_date : string := "Tue, 03 Nov 2026 22:08:00 GMT".
Definition T : Z := 1793743680.

Definition hello : bytes := list_byte_of_string "hello".

(** A stored response: [Date] is [T], [max-age=60], an [ETag]. *)
Definition fresh_headers : gmap string string :=
  headers_of [("Date", T_date); ("Cache-Control", "max-age=60");
              ("ETag", "v1")].

Definition fresh_response : Response Stream :=
  {| http_version := "HTTP/1.1"; status := 200; reason_phrase := "OK";
     headers := fresh_headers; body := hello |}.

Definition fresh_entry : bytes :=
  dumps ∅ fresh_headers 200 "HTTP/1.1" "OK" (Some hello).

(** A stored permanent redirect, without [Date]. *)
Definition moved_headers : gmap string string :=
  headers_of [("Location", "http://example.com/new")].

Definition moved_response : Response Stream :=
  {| http_version := "HTTP/1.1"; status := 301;
     reason_phrase := "Moved Permanently";
     headers := moved_headers; body := [] |}.

Definition moved_entry : bytes :=
  dumps ∅ moved_headers 301 "HTTP/1.1" "Moved Permanently" (Some []).

(** A response with a [Date] header and an empty [Expires] header. *)
Definition empty_expires_headers : gmap string string :=
  headers_of [("Date", T_date); ("Expires", "")].

(** A response that says [no-store]. *)
Definition no_store_headers : gmap string string :=
  headers_of [("Date", T_date); ("Cache-Control", "no-store, max-age=60")].

(** The same, with a declared length of 7 for the 5 bytes of [hello]. *)
Definition no_store_short_headers : gmap string string :=
  headers_of [("Date", T_date); ("Cache-Control", "no-store");
              ("Content-Length", "7")].

(** The headers of a 304 response. *)
Definition not_modified_headers : gmap string string :=
  headers_of [("Date", "Tue, 03 Nov 2026 22:10:00 GMT");
              ("Content-Length", "0"); ("ETag", "v1")].

End Examples.

(** ** Vocabulary of the further statements *)

(** The names of [known_directives]. *)
Definition known_names : list string := fst <$> known_directives.

(** What an entry of a directive set can be, by the table. *)
Definition entry_ok (name : string) (v : option Z) : Prop :=
  match directive_lookup known_directives name with
  | None => False
  | Some (None, _) => v = None
  | Some (Some PyInt, true) => is_Some v
  | Some (Some PyInt, false) => True
  end.

(** The freshness lifetime [cached_request] ends with, for a request
    whose [Date] is the epoch [date]: the request's [max-age], else the
    distance from [date] to the request's [Expires], else 0. *)
Definition request_lifetime (DateTuple : Type)
  (parsedate_tz : string → option DateTuple) (timegm : DateTuple → Z)
  (request_headers : gmap string string) (date : Z) : Z :=
  match parse_cache_control request_headers !! "max-age" with
  | Some (Some n) => n
  | _ =>
      match hget request_headers "expires" ≫= parsedate_tz with
      | Some t => Z.max 0 (timegm t - date)
      | None => 0
      end
  end.

(** The age [cached_request] compares with: the current age and the
    request's [min-fresh]. *)
Definition request_age (request_headers : gmap string string)
  (current_age : Q) : Q :=
  match parse_cache_control request_headers !! "min-fresh" with
  | Some (Some m) => (current_age + inject_Z m)%Q
  | _ => current_age
  end.

(** The response directives carry a [max-age] above 0. *)
Definition positive_max_age (response_headers : gmap string string) : bool :=
  match parse_cache_control response_headers !! "max-age" with
  | Some (Some n) => n >? 0
  | _ => false
  end.

(** ** More concrete exchanges *)

Module Exchanges.

(** A request that carries its own [Date] and [max-age]. *)
Definition dated_request : gmap string string :=
  headers_of [("Date", Examples.T_date); ("Cache-Control", "max-age=60")].

Definition no_cache_request : gmap string string :=
  headers_of [("Cache-Control", "no-cache")].

(** A request whose [Date] is not a date. *)
Definition undated_request : gmap string string :=
  headers_of [("Date", "yesterday")].

Definition page_cache : gmap string bytes :=
  {[ Examples.page_key := Examples.fresh_entry ]}.

(** The superscript two: [isdigit] accepts it, [int] does not. *)
Definition superscript_two : string :=
  String (Ascii.ascii_of_nat 178) EmptyString.

Definition long_headers : gmap string string :=
  headers_of [("Content-Length", "7"); ("ETag", "v1")].

Definition superscript_headers : gmap string string :=
  headers_of [("Content-Length", superscript_two); ("ETag", "v1")].

(** A response with [Date] and [max-age], and no [ETag]. *)
Definition max_age_headers : gmap string string :=
  headers_of [("Date", Examples.T_date); ("Cache-Control", "max-age=60")].

Definition relative : URL :=
  {| scheme := ""; authority := ""; url_str := "/page" |}.

(** A store for the disk cache adapter: a map; a serializer that keeps
    the body and drops the rest. *)
Definition map_get (c : gmap string bytes) (k : string) : option bytes :=
  c !! k.

Definition map_setitem (k : string) (v : bytes) (c : gmap string bytes)
  : gmap string bytes := <[k := v]> c.

Definition map_pop (k : string) (c : gmap string bytes) : gmap string bytes :=
  delete k c.

Definition body_loads (d : option bytes) : option bytes * option unit :=
  (d, (fun _ => tt) <$> d).

Definition body_dumps (r : bytes) (v : unit) (b : bytes) : bytes := b.

(** A response that varies on everything. *)
Definition vary_star_headers : gmap string string :=
  headers_of [("Date", Examples.T_date); ("Cache-Control", "max-age=60");
              ("ETag", "v1"); ("Vary", "Accept, *")].

End Exchanges.

(** ** The disk-backed cache

    Source: [src/httpx_caching/contrib/diskcache.py], class
    [SyncDiskCacheCache].  The [diskcache.Cache] it wraps and the
    serializer of [httpx_caching] are taken as given: [dc_get] is
    [cache.get(key, None)], [dc_setitem] is [cache[key] = value] and
    [dc_pop] is [cache.pop(key)]. *)

Module SyncDiskCacheCache.

Section Adapter.

Variable Store : Type.
Variable dc_get : Store → string → option bytes.
Variable dc_setitem : string → bytes → Store → Store.
Variable dc_pop : string → Store → Store.

Variable Response : Type.
Variable VaryData : Type.
Variable loads : option bytes → option Response * option VaryData.
Variable dumps : Response → VaryData → bytes → bytes.

Definition get (key : string) (cache : Store)
  : option Response * option VaryData :=
  loads (dc_get cache key).

Definition set (key : string) (response : Response)
  (vary_header_data : VaryData) (response_body : bytes) (cache : Store)
  : Store :=
  dc_setitem key (dumps response vary_header_data response_body) cache.

Definition delete (key : string) (cache : Store) : Store :=
  dc_pop key cache.

End Adapter.

End SyncDiskCacheCache.

(** * Properties *)

(** ** The directive parser *)

Section Directives.

Lemma lstrip_blank s : blank (PyStr.lstrip s) = blank s.
Proof.
  induction s as [|a s IH]; simpl; [done|].
  destruct (PyStr.is_space a) eqn:Ha; simpl; [done|by rewrite Ha].
Qed.

Lemma rstrip_truthy s : PyStr.truthy (PyStr.rstrip s) = negb (blank s).
Proof.
  induction s as [|a s IH]; simpl; [done|].
  destruct (PyStr.rstrip s) eqn:Hr; simpl in *.
  - destruct (blank s); [|done].
    destruct (PyStr.is_space a); done.
  - destruct (blank s); [done|]. by rewrite andb_false_r.
Qed.

Lemma strip_truthy s : PyStr.truthy (PyStr.strip s) = negb (blank s).
Proof. unfold PyStr.strip. by rewrite rstrip_truthy, lstrip_blank. Qed.

Lemma split1_blank sep s :
  blank s = true → blank (fst (PyStr.split1 sep s)) = true.
Proof.
  induction s as [|a s IH]; simpl; [done|].
  intros [Ha Hs]%andb_true_iff.
  destruct (Ascii.eqb a sep); [done|].
  destruct (PyStr.split1 sep s) as [h t]; simpl in *.
  by rewrite Ha, IH.
Qed.

Lemma known_not_blank piece k :
  kind_of piece = Some k → PyStr.truthy (PyStr.strip piece) = true.
Proof.
  intros Hk. rewrite strip_truthy.
  destruct (blank piece) eqn:Hb; [|done]. exfalso.
  apply (split1_blank "=") in Hb.
  unfold kind_of, directive_of in Hk.
  assert (PyStr.truthy (PyStr.strip (fst (PyStr.split1 "=" piece))) = false)
    as Ht by (by rewrite strip_truthy, Hb).
  destruct (PyStr.strip (fst (PyStr.split1 "=" piece))); [|done].
  vm_compute in Hk. done.
Qed.

Lemma cc_step_unknown retval piece :
  kind_of piece = None → cc_step retval piece = retval.
Proof.
  unfold kind_of, directive_of, cc_step. intros ->.
  by destruct (negb _).
Qed.

Lemma cc_step_flag retval piece required :
  kind_of piece = Some (None, required) →
  cc_step retval piece = <[directive_of piece := None]> retval.
Proof.
  intros Hk. pose proof (known_not_blank _ _ Hk) as Hb.
  unfold kind_of, directive_of in *. unfold cc_step.
  rewrite Hb. cbv zeta. change (negb true) with false. cbv iota.
  rewrite Hk. done.
Qed.

Lemma cc_step_int retval piece required :
  kind_of piece = Some (Some PyInt, required) →
  cc_step retval piece =
    match value_of piece with
    | Some n => <[directive_of piece := Some n]> retval
    | None => if required then retval
              else <[directive_of piece := None]> retval
    end.
Proof.
  intros Hk. pose proof (known_not_blank _ _ Hk) as Hb.
  unfold kind_of, directive_of, value_of in *. unfold cc_step.
  rewrite Hb. cbv zeta. change (negb true) with false. cbv iota.
  rewrite Hk.
  destruct (snd (PyStr.split1 "=" piece)) as [v|]; simpl.
  - destruct (PyStr.int (PyStr.strip v)); destruct required; simpl;
      by rewrite ?insert_insert_eq.
  - by destruct required.
Qed.

Lemma parse_directives_app pre post :
  parse_directives (pre ++ post) = foldl cc_step (parse_directives pre) post.
Proof. unfold parse_directives. by rewrite foldl_app. Qed.

Lemma parse_directives_snoc pre piece :
  parse_directives (pre ++ [piece]) = cc_step (parse_directives pre) piece.
Proof. by rewrite parse_directives_app. Qed.

(** A piece changes no entry but that of its own name. *)
Lemma cc_step_other retval piece name :
  name ≠ directive_of piece →
  cc_step retval piece !! name = retval !! name.
Proof.
  intros Hne. destruct (kind_of piece) as [[[[]|] required]|] eqn:Hk.
  - rewrite (cc_step_int _ _ _ Hk).
    destruct (value_of piece); [by rewrite lookup_insert_ne|].
    destruct required; [done|by rewrite lookup_insert_ne].
  - rewrite (cc_step_flag _ _ _ Hk). by rewrite lookup_insert_ne.
  - by rewrite cc_step_unknown.
Qed.

(** The entries of [max-age] and [min-fresh] always carry a number. *)
Lemma cc_step_required_int retval piece name :
  directive_lookup known_directives name = Some (Some PyInt, true) →
  retval !! name ≠ Some None →
  cc_step retval piece !! name ≠ Some None.
Proof.
  intros Hname Hret.
  destruct (decide (name = directive_of piece)) as [->|Hne];
    [|by rewrite cc_step_other].
  fold (kind_of piece) in Hname. rewrite (cc_step_int _ _ _ Hname).
  destruct (value_of piece); [by rewrite lookup_insert_eq|done].
Qed.

Lemma parse_directives_required_int pieces name :
  directive_lookup known_directives name = Some (Some PyInt, true) →
  parse_directives pieces !! name ≠ Some None.
Proof.
  intros Hname. induction pieces as [|piece pieces IH] using rev_ind.
  - unfold parse_directives. simpl. by rewrite lookup_empty.
  - rewrite parse_directives_snoc. by apply cc_step_required_int.
Qed.

End Directives.

(** C6 (as stated, refuted): the header [max-stale=abc] does yield a
    [max-stale] entry, one without a value: the value of [max-stale] is
    optional, so the entry is written before the value is parsed and the
    failed parse leaves it there. *)
Lemma max_stale_invalid_value_kept :
  parse_cache_control (headers_of [("cache-control", "max-stale=abc")])
    !! "max-stale" ≠ None.
Proof. vm_compute. discriminate. Qed.

(** C6 (amended): let the pieces of a Cache-Control header be
    [pre ++ piece :: post]. (1) A piece with an unrecognized name is
    dropped: the result is that of the header without it. (2) A piece
    of a directive whose value is required ([max-age], [min-fresh],
    [s-maxage]) with no value, or a value that is not an integer, is
    dropped likewise, and (3) with an integer it is recorded with that
    integer. (4) A flag-only directive is recorded with no value.
    (5) A directive whose value is optional ([max-stale]) is recorded
    with its integer, and with no value when the value is missing or not
    an integer. (6) A piece leaves the entry of every other name as
    it was. *)
Theorem parse_cache_control_pieces
  (headers : gmap string string) (pre post : list string) (piece : string) :
  PyStr.split "," (hget_default headers "cache-control" "")
    = pre ++ piece :: post →
  let before := parse_directives pre in
  let after := parse_directives (pre ++ [piece]) in
  parse_cache_control headers = foldl cc_step after post
  ∧ (kind_of piece = None →
     after = before ∧ parse_cache_control headers = parse_directives (pre ++ post))
  ∧ (kind_of piece = Some (Some PyInt, true) → value_of piece = None →
     after = before ∧ parse_cache_control headers = parse_directives (pre ++ post))
  ∧ (∀ n, kind_of piece = Some (Some PyInt, true) → value_of piece = Some n →
     after !! directive_of piece = Some (Some n))
  ∧ (∀ required, kind_of piece = Some (None, required) →
     after !! directive_of piece = Some None)
  ∧ (kind_of piece = Some (Some PyInt, false) →
     after !! directive_of piece = Some (value_of piece))
  ∧ (∀ name, name ≠ directive_of piece → after !! name = before !! name).
Proof.
  intros Hsplit before after.
  assert (parse_cache_control headers = foldl cc_step after post) as Hall.
  { unfold parse_cache_control. cbv zeta. rewrite Hsplit.
    replace (pre ++ piece :: post) with ((pre ++ [piece]) ++ post)
      by (by rewrite <- app_assoc).
    apply parse_directives_app. }
  assert (after = cc_step before piece) as Hafter
    by apply parse_directives_snoc.
  split; [done|]. repeat split.
  - rewrite Hafter. by apply cc_step_unknown.
  - rewrite Hall, Hafter, cc_step_unknown by done.
    symmetry. apply parse_directives_app.
  - rewrite Hafter, (cc_step_int _ _ _ H), H0. done.
  - rewrite Hall, Hafter, (cc_step_int _ _ _ H), H0.
    symmetry. apply parse_directives_app.
  - intros n Hk Hv. rewrite Hafter, (cc_step_int _ _ _ Hk), Hv.
    apply lookup_insert_eq.
  - intros required Hk. rewrite Hafter, (cc_step_flag _ _ _ Hk).
    apply lookup_insert_eq.
  - intros Hk. rewrite Hafter, (cc_step_int _ _ _ Hk).
    destruct (value_of piece); apply lookup_insert_eq.
  - intros name Hne. rewrite Hafter. by apply cc_step_other.
Qed.

(** The header ["foo=1, max-age=30"]: the unknown [foo] is dropped and
    [max-age=30] is kept. *)
Lemma parse_cache_control_pieces_witness :
  parse_cache_control (headers_of [("cache-control", "foo=1, max-age=30")])
    = parse_directives ([] ++ [" max-age=30"])
  ∧ parse_cache_control (headers_of [("cache-control", "foo=1, max-age=30")])
    = {[ "max-age" := Some 30 ]}.
Proof.
  destruct (parse_cache_control_pieces
              (headers_of [("cache-control", "foo=1, max-age=30")])
              [] [" max-age=30"] "foo=1") as (_ & Hunknown & _);
    [reflexivity|].
  split; [apply Hunknown; reflexivity|].
  vm_compute. reflexivity.
Defined.

(** ** The lookup: [cached_request] *)

Section Lookup.

Context (Stream : Type).
Context (loads : gmap string string → option bytes → option (Response Stream)).
Context (DateTuple : Type) (parsedate_tz : string → option DateTuple).
Context (timegm : DateTuple → Z).

Lemma cached_request_reaches_entry self request_url request_headers now
  cache key data :
  cache_url request_url = Returned key →
  allows_cache request_headers →
  cache !! key = Some data →
  cached_request Stream loads DateTuple parsedate_tz timegm self request_url
    request_headers now cache =
    match loads request_headers (Some data) with
    | None => (cache, Returned None)
    | Some resp =>
        if status_in (status Stream resp) PERMANENT_REDIRECT_STATUSES
        then (cache, Returned (Some resp))
        else if negb (headers_truthy request_headers)
                || negb (hmem "date" request_headers)
        then
          (if negb (hmem "etag" request_headers)
           then cache_delete key cache else cache, Returned None)
        else
          match d ← hitem request_headers "date"; epoch_of DateTuple parsedate_tz timegm d with
          | Raised e => (cache, Raised e)
          | Returned date =>
              let cc := parse_cache_control request_headers in
              match freshness_lifetime DateTuple parsedate_tz timegm
                      request_headers date cc cc with
              | Raised e => (cache, Raised e)
              | Returned lifetime =>
                  match adjust_age cc (qmax0 (now - inject_Z date)) with
                  | Raised e => (cache, Raised e)
                  | Returned current_age =>
                      match is_fresh lifetime current_age with
                      | Raised e => (cache, Raised e)
                      | Returned true => (cache, Returned (Some resp))
                      | Returned false =>
                          (if negb (hmem "etag" request_headers)
                           then cache_delete key cache else cache,
                           Returned None)
                      end
                  end
              end
          end
    end.
Proof.
  intros Hurl [Hnc Hma] Hdata. unfold cached_request.
  rewrite Hurl. cbv zeta. rewrite Hnc.
  rewrite (bool_decide_eq_false_2 _ Hma), andb_false_r.
  unfold cache_get. rewrite Hdata. reflexivity.
Qed.

Lemma cc_has_empty name : cc_has name ∅ = false.
Proof.
  unfold cc_has. apply bool_decide_eq_false_2.
  rewrite lookup_empty. by intros [? ?].
Qed.

Lemma parse_cache_control_absent (h : gmap string string) :
  hget h "cache-control" = None → parse_cache_control h = ∅.
Proof.
  intros Hcc. unfold parse_cache_control, hget_default. rewrite Hcc.
  reflexivity.
Qed.

Lemma allows_cache_absent (h : gmap string string) :
  hget h "cache-control" = None → allows_cache h.
Proof.
  intros Hcc. unfold allows_cache. rewrite parse_cache_control_absent by done.
  split; [reflexivity|]. by rewrite lookup_empty.
Qed.

Lemma zero_lifetime_stale (x : Q) : gt_age 0 (qmax0 x) = false.
Proof.
  unfold gt_age, qmax0. apply negb_false_iff.
  destruct (Qle_bool x 0) eqn:Hx.
  - reflexivity.
  - apply Qle_bool_iff. change (inject_Z 0) with 0%Q.
    destruct (Qlt_le_dec 0 x) as [Hlt|Hle].
    + by apply Qlt_le_weak.
    + apply Qle_bool_iff in Hle. congruence.
Qed.

(** C9: when the lookup reaches a stored entry that deserializes to a
    response of status 301 or 308, that response is returned and the
    backend is left as it is, whatever the request's headers (with or
    without [Date], [ETag], [Expires]) and whatever the time. *)
Theorem cached_request_permanent_redirect self request_url request_headers
  now cache key data resp :
  cache_url request_url = Returned key →
  allows_cache request_headers →
  cache !! key = Some data →
  loads request_headers (Some data) = Some resp →
  status Stream resp = 301 ∨ status Stream resp = 308 →
  cached_request Stream loads DateTuple parsedate_tz timegm self request_url
    request_headers now cache
    = (cache, Returned (Some resp)).
Proof.
  intros Hurl Hallow Hdata Hloads Hstatus.
  rewrite (cached_request_reaches_entry _ _ _ _ _ _ _ Hurl Hallow Hdata).
  rewrite Hloads.
  by destruct Hstatus as [-> | ->].
Qed.

(** C10: a lookup leaves the backend as it is or deletes the entry
    under the request's own key; every entry of the backend after the
    lookup was there before with the same bytes, and the entries under
    all other keys are unchanged. *)
Theorem cached_request_frame self request_url request_headers now cache :
  let cache' := fst (cached_request Stream loads DateTuple parsedate_tz timegm self request_url
    request_headers now cache) in
  (cache' = cache
   ∨ ∃ key, cache_url request_url = Returned key ∧ cache' = delete key cache)
  ∧ (∀ k v, cache' !! k = Some v → cache !! k = Some v)
  ∧ (∀ k, cache_url request_url ≠ Returned k → cache' !! k = cache !! k).
Proof.
  intros cache'.
  assert (cache' = cache
          ∨ ∃ key, cache_url request_url = Returned key
                   ∧ cache' = delete key cache) as Hshape.
  { subst cache'. unfold cached_request, cache_delete.
    destruct (cache_url request_url) as [key|e]; [|by left].
    cbv zeta.
    repeat (match goal with
            | |- context [match ?x with _ => _ end] => destruct x
            end; simpl; try (by left); try (right; by exists key)). }
  split; [done|].
  destruct Hshape as [-> | (key & Hkey & ->)]; [done|].
  split.
  - intros k v Hk. apply lookup_delete_Some in Hk. by destruct Hk.
  - intros k Hk. apply lookup_delete_ne. congruence.
Qed.

(** C1 (the code at the failing input): the lookup never consults the
    stored response's [Date], [Cache-Control] or [Expires].  With a
    request that carries no [Date] header of its own, a stored entry
    that is not a permanent redirect is reported not usable at any
    time, and purged unless the request carries an [ETag] header,
    whatever freshness the stored headers declare. *)
Theorem cached_request_ignores_stored_freshness self request_url
  request_headers now cache key data resp :
  cache_url request_url = Returned key →
  allows_cache request_headers →
  cache !! key = Some data →
  loads request_headers (Some data) = Some resp →
  status_in (status Stream resp) PERMANENT_REDIRECT_STATUSES = false →
  hmem "date" request_headers = false →
  cached_request Stream loads DateTuple parsedate_tz timegm self request_url
    request_headers now cache
    = (if hmem "etag" request_headers then cache else delete key cache,
       Returned None).
Proof.
  intros Hurl Hallow Hdata Hloads Hstatus Hdate.
  rewrite (cached_request_reaches_entry _ _ _ _ _ _ _ Hurl Hallow Hdata).
  rewrite Hloads, Hstatus, Hdate, orb_true_r.
  by destruct (hmem "etag" request_headers).
Qed.

(** C7 (the code at the failing input): the purge of a stale entry is
    decided by an [ETag] header of the request, not of the stored
    entry.  A request with a [Date] header and no [ETag],
    [Cache-Control] or [Expires] finds every entry that is not a
    permanent redirect stale, and the entry is deleted although the
    stored response has an [ETag]. *)
Theorem cached_request_stale_purges_entry_with_etag self request_url
  request_headers now cache key data resp d t :
  cache_url request_url = Returned key →
  cache !! key = Some data →
  loads request_headers (Some data) = Some resp →
  status_in (status Stream resp) PERMANENT_REDIRECT_STATUSES = false →
  hmem "etag" (headers Stream resp) = true →
  hget request_headers "date" = Some d →
  parsedate_tz d = Some t →
  hget request_headers "cache-control" = None →
  hmem "expires" request_headers = false →
  hmem "etag" request_headers = false →
  cached_request Stream loads DateTuple parsedate_tz timegm self request_url
    request_headers now cache
    = (delete key cache, Returned None).
Proof.
  intros Hurl Hdata Hloads Hstatus _ Hdate Ht Hcc Hexp Hetag.
  rewrite (cached_request_reaches_entry _ _ _ _ _ _ _ Hurl
             (allows_cache_absent _ Hcc) Hdata).
  rewrite Hloads, Hstatus.
  assert (hmem "date" request_headers = true) as Hmem.
  { unfold hmem. rewrite Hdate. by apply bool_decide_eq_true_2. }
  assert (headers_truthy request_headers = true) as Htruthy.
  { unfold headers_truthy. apply negb_true_iff, bool_decide_eq_false_2.
    intros ->. unfold hget in Hdate. by rewrite lookup_empty in Hdate. }
  rewrite Hmem, Htruthy. simpl.
  unfold hitem. rewrite Hdate. simpl. unfold epoch_of. rewrite Ht.
  rewrite parse_cache_control_absent by done.
  unfold freshness_lifetime, adjust_age. rewrite Hexp, !cc_has_empty.
  simpl. rewrite zero_lifetime_stale, Hetag. reflexivity.
Qed.

End Lookup.

(** ** The write decision: [cache_response] *)

Section Store.

Context (Stream : Type).
Context (dumps : gmap string string → gmap string string → Z → string →
                 string → option bytes → bytes).

(** C3 (the code at the failing input): with a status code outside
    the cacheable set, [cache_response] stores nothing, and it does not
    return: the argument [response.status] of its log call reads a
    name the function does not bind, which raises [NameError]. *)
Theorem cache_response_uncacheable_status_raises self request_url
  request_headers response_headers response_status_code
  response_reason_phrase response_http_version response_body cache :
  response_status_code ∉ cacheable_status_codes self →
  cache_response Stream dumps self request_url request_headers response_headers
    response_status_code response_reason_phrase response_http_version
    response_body cache
  = (cache, Raised (NameError "response")).
Proof.
  intros Hstatus. unfold cache_response, status_in.
  by rewrite (bool_decide_eq_false_2 _ Hstatus).
Qed.

Lemma cache_response_decision self request_url request_headers
  response_headers response_status_code response_reason_phrase
  response_http_version response_body cache key :
  passes_checks self request_url request_headers response_headers
    response_status_code response_body key →
  cache_response Stream dumps self request_url request_headers response_headers
    response_status_code response_reason_phrase response_http_version
    response_body cache
  = let put (b : option bytes) :=
      (<[key := dumps request_headers response_headers response_status_code
                  response_http_version response_reason_phrase b]> cache,
       Returned tt) in
    if cache_etags self && hmem "etag" response_headers
    then put response_body
    else if status_in response_status_code PERMANENT_REDIRECT_STATUSES
    then put (Some [])
    else if hmem "date" response_headers
    then
      match max_age_positive (parse_cache_control response_headers) with
      | Raised e => (cache, Raised e)
      | Returned true => put response_body
      | Returned false =>
          if hmem "expires" response_headers
          then put response_body
          else (cache, Returned tt)
      end
    else (cache, Returned tt).
Proof.
  intros [Hstatus Hlen Hurl Hreq Hresp Hvary].
  unfold cache_response, status_in at 1.
  rewrite (bool_decide_eq_true_2 _ Hstatus), Hlen, Hurl. cbv zeta.
  rewrite Hreq, Hresp, Hvary. simpl.
  destruct (cache_etags self && hmem "etag" response_headers); [done|].
  destruct (status_in response_status_code PERMANENT_REDIRECT_STATUSES);
    [done|].
  destruct (hmem "date" response_headers); [|done].
  destruct (max_age_positive _) as [[]|]; [done| |done].
  destruct (hmem "expires" response_headers) eqn:Hexp; [|done].
  unfold hitem. unfold hmem in Hexp. apply bool_decide_eq_true_1 in Hexp.
  destruct Hexp as [v ->]. done.
Qed.

(** C2 (the code at the failing input): a response that has reached
    the store decision, with a [Date] header and an empty [Expires]
    header, no [ETag], no [max-age], and a status other than 301 and
    308, meets none of the conditions (a) to (d); the code stores it
    all the same. *)
Theorem cache_response_stores_empty_expires self request_url
  request_headers response_headers response_status_code
  response_reason_phrase response_http_version response_body cache key :
  passes_checks self request_url request_headers response_headers
    response_status_code response_body key →
  hmem "etag" response_headers = false →
  response_status_code ≠ 301 → response_status_code ≠ 308 →
  hmem "date" response_headers = true →
  hget response_headers "cache-control" = None →
  hget response_headers "expires" = Some "" →
  cache_response Stream dumps self request_url request_headers response_headers
    response_status_code response_reason_phrase response_http_version
    response_body cache
  = (<[key := dumps request_headers response_headers response_status_code
                response_http_version response_reason_phrase response_body]>
       cache, Returned tt).
Proof.
  intros Hpass Hetag H301 H308 Hdate Hcc Hexp.
  rewrite (cache_response_decision _ _ _ _ _ _ _ _ _ _ Hpass). cbv zeta.
  rewrite Hetag, andb_false_r, Hdate.
  assert (status_in response_status_code PERMANENT_REDIRECT_STATUSES = false)
    as ->.
  { apply bool_decide_eq_false_2. unfold PERMANENT_REDIRECT_STATUSES.
    rewrite !elem_of_cons, elem_of_nil. tauto. }
  unfold parse_cache_control, hget_default. rewrite Hcc. simpl.
  unfold hmem. rewrite Hexp.
  by rewrite bool_decide_eq_true_2.
Qed.

(** C8 (amended): when the status is cacheable, the declared length
    agrees with the body and the URL is absolute, a [no-store] among
    the request's or the response's directives makes [cache_response]
    return with nothing stored; an entry under the key whose bytes are
    not empty is deleted, and all other entries stay as they were. *)
Theorem cache_response_no_store self request_url request_headers
  response_headers response_status_code response_reason_phrase
  response_http_version response_body cache key :
  response_status_code ∈ cacheable_status_codes self →
  content_length_differs response_body response_headers = Returned false →
  cache_url request_url = Returned key →
  cc_has "no-store" (parse_cache_control request_headers) = true
  ∨ cc_has "no-store" (parse_cache_control response_headers) = true →
  let result :=
    cache_response Stream dumps self request_url request_headers response_headers
      response_status_code response_reason_phrase response_http_version
      response_body cache in
  result = (if data_truthy (cache !! key) then delete key cache else cache,
            Returned tt)
  ∧ (∀ data, cache !! key = Some data → data ≠ [] → fst result !! key = None)
  ∧ (∀ k v, fst result !! k = Some v → cache !! k = Some v)
  ∧ (∀ k, k ≠ key → fst result !! k = cache !! k).
Proof.
  intros Hstatus Hlen Hurl Hns result.
  assert (result = (if data_truthy (cache !! key)
                    then delete key cache else cache, Returned tt)) as Hres.
  { subst result. unfold cache_response, status_in.
    rewrite (bool_decide_eq_true_2 _ Hstatus), Hlen, Hurl. cbv zeta.
    unfold cache_get, cache_delete. simpl.
    destruct Hns as [-> | ->].
    - by destruct (cc_has "no-store" (parse_cache_control response_headers)).
    - by destruct (cc_has "no-store" (parse_cache_control request_headers)). }
  split; [done|]. rewrite Hres. simpl. repeat split.
  - intros data Hdata Hne. rewrite Hdata.
    destruct data; [done|]. simpl. apply lookup_delete_eq.
  - intros k v. destruct (data_truthy (cache !! key)); [|done].
    intros Hk%lookup_delete_Some. by destruct Hk.
  - intros k Hk. destruct (data_truthy (cache !! key)); [|done].
    by apply lookup_delete_ne.
Qed.

End Store.

(** ** Conditional headers and the merge of a 304 response *)

Section Revalidation.

Context (Stream : Type) (read : Stream → bytes * Stream).
Context (loads : gmap string string → option bytes → option (Response Stream)).
Context (dumps : gmap string string → gmap string string → Z → string →
                 string → option bytes → bytes).

(** C4 (the code on every input): [conditional_headers] never returns
    a header set.  For a URL without scheme or authority [cache_url]
    raises; for every other URL the call of [loads] reads the name
    [request_headers], which the function does not bind, and raises
    [NameError] before the backend is read.  The backend is left as it
    is. *)
Theorem conditional_headers_raises self request_url cache :
  conditional_headers Stream loads self request_url cache
  = (cache,
     Raised match cache_url request_url with
            | Raised e => e
            | Returned _ => NameError "request_headers"
            end).
Proof.
  unfold conditional_headers.
  by destruct (cache_url request_url).
Qed.

Lemma hupdate_lookup_notin (h : gmap string string) d k :
  (∀ kv, kv ∈ d → PyStr.lower (fst kv) ≠ k) →
  hupdate h d !! k = h !! k.
Proof.
  unfold hupdate. revert h.
  induction d as [|kv d IH]; intros h Hd; simpl; [done|].
  rewrite IH.
  - apply lookup_insert_ne, Hd. by left.
  - intros kv' Hin. apply Hd. by right.
Qed.

Lemma hupdate_lookup_in (h : gmap string string) d k v :
  NoDup (d.*1) →
  (∀ kv, kv ∈ d → PyStr.lower (fst kv) = fst kv) →
  (k, v) ∈ d →
  hupdate h d !! k = Some v.
Proof.
  unfold hupdate. revert h.
  induction d as [|[k' v'] d IH]; intros h Hnd Hnorm Hin; simpl.
  - by apply elem_of_nil in Hin.
  - apply NoDup_cons in Hnd as [Hk' Hnd]. simpl in Hk'.
    apply elem_of_cons in Hin as [Heq | Hin].
    + injection Heq as <- <-.
      fold (hupdate (<[PyStr.lower k := v]> h) d).
      rewrite hupdate_lookup_notin.
      * pose proof (Hnorm (k, v) ltac:(by left)) as Hl. simpl in Hl.
        simpl. rewrite Hl. apply lookup_insert_eq.
      * intros kv Hkv Hlow. apply Hk'.
        rewrite (Hnorm kv) in Hlow by (by right). subst k.
        by apply list_elem_of_fmap_2.
    + apply IH; [done| |done]. intros kv Hkv. apply Hnorm. by right.
Qed.



End Revalidation.

(** * Further properties *)

(** ** The directive set *)

Section DirectiveSet.

Lemma cc_step_entry_ok retval piece :
  (∀ name v, retval !! name = Some v → entry_ok name v) →
  ∀ name v, cc_step retval piece !! name = Some v → entry_ok name v.
Proof.
  intros Hret name v.
  destruct (decide (name = directive_of piece)) as [->|Hne];
    [|rewrite cc_step_other by done; apply Hret].
  unfold entry_ok. fold (kind_of piece).
  destruct (kind_of piece) as [[[[]|] required]|] eqn:Hk.
  - rewrite (cc_step_int _ _ _ Hk).
    destruct (value_of piece) as [n|].
    + rewrite lookup_insert_eq. intros [= <-]. by destruct required.
    + destruct required.
      * intros Hv. specialize (Hret _ _ Hv). unfold entry_ok in Hret.
        fold (kind_of piece) in Hret. by rewrite Hk in Hret.
      * done.
  - rewrite (cc_step_flag _ _ _ Hk), lookup_insert_eq. by intros [= <-].
  - rewrite cc_step_unknown by done. intros Hv.
    specialize (Hret _ _ Hv). unfold entry_ok in Hret.
    fold (kind_of piece) in Hret. by rewrite Hk in Hret.
Qed.

Lemma parse_directives_entry_ok pieces name v :
  parse_directives pieces !! name = Some v → entry_ok name v.
Proof.
  revert name v. induction pieces as [|piece pieces IH] using rev_ind.
  - intros name v. unfold parse_directives. simpl. by rewrite lookup_empty.
  - rewrite parse_directives_snoc. by apply cc_step_entry_ok.
Qed.

Lemma directive_lookup_known tbl name k :
  directive_lookup tbl name = Some k → name ∈ fst <$> tbl.
Proof.
  induction tbl as [|[n v] tbl IH]; simpl; [done|].
  destruct (String.eqb n name) eqn:Hn.
  - apply String.eqb_eq in Hn as ->. intros _. by left.
  - intros Hk. right. by apply IH.
Qed.

(** X1: every name in the directive set of a header is one of the
    twelve names of the table. *)
Theorem parse_cache_control_known_names (headers : gmap string string)
  (name : string) :
  is_Some (parse_cache_control headers !! name) → name ∈ known_names.
Proof.
  intros [v Hv]. apply parse_directives_entry_ok in Hv.
  unfold entry_ok in Hv.
  destruct (directive_lookup known_directives name) as [k|] eqn:Hk; [|done].
  by apply directive_lookup_known in Hk.
Qed.

(** X2: in the directive set of a header, [max-age], [min-fresh] and
    [s-maxage] always carry an integer, and the flag-only directives
    never carry a value. *)
Theorem parse_cache_control_value_types (headers : gmap string string)
  (name : string) (v : option Z) :
  parse_cache_control headers !! name = Some v →
  (name ∈ ["max-age"; "min-fresh"; "s-maxage"] → ∃ n, v = Some n)
  ∧ (name ∈ ["no-cache"; "no-store"; "no-transform"; "only-if-cached";
             "must-revalidate"; "public"; "private"; "proxy-revalidate"] →
     v = None).
Proof.
  intros Hv. apply parse_directives_entry_ok in Hv. split; intros Hname.
  - repeat (apply elem_of_cons in Hname as [->|Hname];
            [by destruct Hv as [n ->]; exists n|]).
    by apply elem_of_nil in Hname.
  - repeat (apply elem_of_cons in Hname as [->|Hname]; [exact Hv|]).
    by apply elem_of_nil in Hname.
Qed.

Lemma cc_step_blank retval piece :
  blank piece = true → cc_step retval piece = retval.
Proof.
  intros Hb. unfold cc_step. by rewrite strip_truthy, Hb.
Qed.

(** X3: a header without [Cache-Control], or with one whose pieces
    between commas are all empty or white space, has the empty
    directive set. *)
Theorem parse_cache_control_blank (headers : gmap string string) :
  Forall (fun piece => blank piece = true)
    (PyStr.split "," (hget_default headers "cache-control" "")) →
  parse_cache_control headers = ∅.
Proof.
  unfold parse_cache_control. cbv zeta.
  generalize (PyStr.split "," (hget_default headers "cache-control" "")).
  intros pieces. induction pieces as [|piece pieces IH] using rev_ind.
  - reflexivity.
  - intros [Hpieces Hpiece]%Forall_app.
    apply Forall_cons in Hpiece as [Hb _].
    rewrite parse_directives_snoc, cc_step_blank by done. by apply IH.
Qed.

Lemma parse_cache_control_blank_witness :
  parse_cache_control (headers_of [("Cache-Control", " , ,")]) = ∅
  ∧ parse_cache_control (headers_of [("Date", "x")]) = ∅.
Proof.
  split; apply parse_cache_control_blank;
    repeat (apply Forall_cons; split; [reflexivity|]); apply Forall_nil_2.
Defined.

Lemma parse_cache_control_known_names_witness :
  "max-stale" ∈ known_names.
Proof.
  apply (parse_cache_control_known_names
           (headers_of [("Cache-Control", "max-stale, foo")])).
  exists None. reflexivity.
Defined.

Lemma parse_cache_control_value_types_witness :
  ∃ n, parse_cache_control (headers_of [("Cache-Control", "max-age=+07")])
         !! "max-age" = Some (Some n).
Proof.
  destruct (parse_cache_control_value_types
              (headers_of [("Cache-Control", "max-age=+07")]) "max-age"
              (Some 7)) as [Hint _]; [reflexivity|].
  destruct Hint as [n Hn]; [by left|].
  exists n. rewrite <- Hn. reflexivity.
Defined.

End DirectiveSet.

(** ** The lookup, further *)

Section LookupFurther.

Context (Stream : Type).
Context (loads : gmap string string → option bytes → option (Response Stream)).
Context (DateTuple : Type) (parsedate_tz : string → option DateTuple).
Context (timegm : DateTuple → Z).

Lemma cc_has_lookup name (cc : gmap string (option Z)) :
  cc_has name cc = true ↔ is_Some (cc !! name).
Proof. unfold cc_has. apply bool_decide_eq_true. Qed.

Lemma cc_has_false name (cc : gmap string (option Z)) :
  cc_has name cc = false ↔ cc !! name = None.
Proof.
  unfold cc_has. rewrite bool_decide_eq_false, <- eq_None_not_Some. done.
Qed.

Lemma hmem_lookup name (h : gmap string string) :
  hmem name h = true ↔ is_Some (hget h name).
Proof. unfold hmem. apply bool_decide_eq_true. Qed.

Lemma hmem_false name (h : gmap string string) :
  hmem name h = false ↔ hget h name = None.
Proof.
  unfold hmem. rewrite bool_decide_eq_false, <- eq_None_not_Some. done.
Qed.

(** The entry of a directive whose value is required, in the directive
    set of a header. *)
Lemma required_entry (h : gmap string string) name :
  directive_lookup known_directives name = Some (Some PyInt, true) →
  parse_cache_control h !! name = None
  ∨ ∃ n, parse_cache_control h !! name = Some (Some n).
Proof.
  intros Hname.
  destruct (parse_cache_control h !! name) as [[n|]|] eqn:Hv; eauto.
  by apply parse_directives_required_int in Hv.
Qed.

Lemma freshness_lifetime_request request_headers date :
  freshness_lifetime DateTuple parsedate_tz timegm request_headers date
    (parse_cache_control request_headers) (parse_cache_control request_headers)
  = Returned (Some (request_lifetime DateTuple parsedate_tz timegm
                      request_headers date)).
Proof.
  unfold freshness_lifetime, request_lifetime.
  destruct (required_entry request_headers "max-age" eq_refl)
    as [Hma | [n Hma]].
  - rewrite (proj2 (cc_has_false _ _) Hma), Hma.
    destruct (hmem "expires" request_headers) eqn:Hexp.
    + apply hmem_lookup in Hexp as [e He]. unfold hitem. rewrite He. simpl.
      by destruct (parsedate_tz e).
    + apply hmem_false in Hexp. rewrite Hexp. done.
  - assert (cc_has "max-age" (parse_cache_control request_headers) = true)
      as -> by (apply cc_has_lookup; eauto).
    rewrite Hma. done.
Qed.

Lemma adjust_age_request request_headers current_age :
  adjust_age (parse_cache_control request_headers) current_age
  = Returned (request_age request_headers current_age).
Proof.
  unfold adjust_age, request_age.
  destruct (required_entry request_headers "min-fresh" eq_refl)
    as [Hmf | [m Hmf]].
  - by rewrite (proj2 (cc_has_false _ _) Hmf), Hmf.
  - assert (cc_has "min-fresh" (parse_cache_control request_headers) = true)
      as -> by (apply cc_has_lookup; eauto).
    by rewrite Hmf.
Qed.


Lemma date_present_truthy (request_headers : gmap string string) d :
  hget request_headers "date" = Some d →
  negb (headers_truthy request_headers) || negb (hmem "date" request_headers)
  = false.
Proof.
  intros Hdate.
  assert (hmem "date" request_headers = true) as ->
    by (apply hmem_lookup; eauto).
  assert (headers_truthy request_headers = true) as ->; [|done].
  unfold headers_truthy. apply negb_true_iff, bool_decide_eq_false_2.
  intros ->. unfold hget in Hdate. by rewrite lookup_empty in Hdate.
Qed.

(** The ways through [cached_request]; only the last depends on the
    time. *)
Lemma cached_request_cases self request_url request_headers cache :
  let run now :=
    cached_request Stream loads DateTuple parsedate_tz timegm self request_url
      request_headers now cache in
  (∃ e, cache_url request_url = Raised e ∧ ∀ now, run now = (cache, Raised e))
  ∨ ∃ key, cache_url request_url = Returned key
      ∧ ((∀ now, run now = (cache, Returned None))
         ∨ ∃ data resp,
             cache !! key = Some data
             ∧ loads request_headers (Some data) = Some resp
             ∧ ((∀ now, run now = (cache, Returned (Some resp)))
                ∨ (∀ now, run now =
                     (if hmem "etag" request_headers
                      then cache else delete key cache, Returned None))
                ∨ (∃ d, hget request_headers "date" = Some d
                        ∧ parsedate_tz d = None
                        ∧ ∀ now, run now = (cache, Raised TypeError))
                ∨ (∃ d t, hget request_headers "date" = Some d
                          ∧ parsedate_tz d = Some t
                          ∧ ∀ now, run now =
                              if gt_age
                                   (request_lifetime DateTuple parsedate_tz
                                      timegm request_headers (timegm t))
                                   (request_age request_headers
                                      (qmax0 (now - inject_Z (timegm t))))
                              then (cache, Returned (Some resp))
                              else (if hmem "etag" request_headers
                                    then cache else delete key cache,
                                    Returned None)))).
Proof.
  intros run. subst run. cbv beta.
  destruct (cache_url request_url) as [key|e] eqn:Hurl.
  2:{ left. exists e. split; [done|]. intros now.
      unfold cached_request. by rewrite Hurl. }
  right. exists key. split; [done|].
  destruct (cc_has "no-cache" (parse_cache_control request_headers)) eqn:Hnc.
  { left. intros now. unfold cached_request. rewrite Hurl. cbv zeta.
    by rewrite Hnc. }
  destruct (decide (parse_cache_control request_headers !! "max-age"
                    = Some (Some 0))) as [Hma|Hma].
  { left. intros now. unfold cached_request. rewrite Hurl. cbv zeta.
    rewrite Hnc.
    assert (cc_has "max-age" (parse_cache_control request_headers) = true)
      as -> by (apply cc_has_lookup; eauto).
    by rewrite (bool_decide_eq_true_2 _ Hma). }
  assert (allows_cache request_headers) as Hallow by done.
  destruct (cache !! key) as [data|] eqn:Hdata.
  2:{ left. intros now. unfold cached_request. rewrite Hurl. cbv zeta.
      rewrite Hnc, (bool_decide_eq_false_2 _ Hma), andb_false_r.
      unfold cache_get. by rewrite Hdata. }
  pose proof (fun now =>
    cached_request_reaches_entry Stream loads DateTuple parsedate_tz timegm
      self request_url request_headers now cache key data Hurl Hallow Hdata)
    as Hrun.
  destruct (loads request_headers (Some data)) as [resp|] eqn:Hloads.
  2:{ left. intros now. by rewrite Hrun. }
  right. exists data, resp. split; [done|]. split; [done|].
  destruct (status_in (status Stream resp) PERMANENT_REDIRECT_STATUSES)
    eqn:Hstatus.
  { left. intros now. by rewrite Hrun. }
  right.
  destruct (hget request_headers "date") as [d|] eqn:Hdate.
  2:{ left. intros now. rewrite Hrun.
      rewrite (proj2 (hmem_false _ _) Hdate), orb_true_r.
      by destruct (hmem "etag" request_headers). }
  right.
  destruct (parsedate_tz d) as [t|] eqn:Ht.
  - right. exists d, t. split; [done|]. split; [done|]. intros now.
    rewrite Hrun, (date_present_truthy _ _ Hdate).
    unfold hitem. rewrite Hdate. simpl. unfold epoch_of. rewrite Ht.
    rewrite freshness_lifetime_request, adjust_age_request. simpl.
    destruct (gt_age _ _); [done|].
    by destruct (hmem "etag" request_headers).
  - left. exists d. split; [done|]. split; [done|]. intros now.
    rewrite Hrun, (date_present_truthy _ _ Hdate).
    unfold hitem. rewrite Hdate. simpl. unfold epoch_of. by rewrite Ht.
Qed.

(** X5: for an absolute URL, a request with [no-cache] or with
    [max-age=0], a key without an entry, and an entry that does not
    deserialize all give a miss that leaves the backend as it is, at any
    time. *)
Theorem cached_request_bypass self request_url request_headers now cache key :
  cache_url request_url = Returned key →
  is_Some (parse_cache_control request_headers !! "no-cache")
  ∨ parse_cache_control request_headers !! "max-age" = Some (Some 0)
  ∨ cache !! key = None
  ∨ (∃ data, cache !! key = Some data
             ∧ loads request_headers (Some data) = None) →
  cached_request Stream loads DateTuple parsedate_tz timegm self request_url
    request_headers now cache
  = (cache, Returned None).
Proof.
  intros Hurl Hwhy. unfold cached_request. rewrite Hurl. cbv zeta.
  destruct (cc_has "no-cache" (parse_cache_control request_headers)) eqn:Hnc;
    [done|].
  destruct Hwhy as [Hno | Hwhy];
    [apply cc_has_lookup in Hno; congruence|].
  destruct (cc_has "max-age" (parse_cache_control request_headers)
            && bool_decide (parse_cache_control request_headers !! "max-age"
                            = Some (Some 0))) eqn:Hma; [done|].
  destruct Hwhy as [Hzero | Hwhy].
  { rewrite (bool_decide_eq_true_2 _ Hzero), andb_true_r in Hma.
    apply cc_has_false in Hma. congruence. }
  unfold cache_get.
  destruct Hwhy as [-> | (data & -> & ->)]; done.
Qed.

(** X6: when the lookup reaches an entry that is not a permanent
    redirect and the request has a [Date] header that [parsedate_tz]
    does not read, [calendar.timegm] is given [None]: the lookup raises
    [TypeError] and the backend is left as it is. *)
Theorem cached_request_unreadable_date self request_url request_headers now
  cache key data resp d :
  cache_url request_url = Returned key →
  allows_cache request_headers →
  cache !! key = Some data →
  loads request_headers (Some data) = Some resp →
  status_in (status Stream resp) PERMANENT_REDIRECT_STATUSES = false →
  hget request_headers "date" = Some d →
  parsedate_tz d = None →
  cached_request Stream loads DateTuple parsedate_tz timegm self request_url
    request_headers now cache
  = (cache, Raised TypeError).
Proof.
  intros Hurl Hallow Hdata Hloads Hstatus Hdate Ht.
  rewrite (cached_request_reaches_entry _ _ _ _ _ _ _ _ _ _ _ _ Hurl Hallow Hdata).
  rewrite Hloads, Hstatus, (date_present_truthy _ _ Hdate).
  unfold hitem. rewrite Hdate. simpl. unfold epoch_of. by rewrite Ht.
Qed.


(** X8: a response that [cached_request] returns is the one the
    serializer reads from the bytes stored under the request's key, and
    returning it leaves the backend as it is. *)
Theorem cached_request_hit_origin self request_url request_headers now cache
  cache' resp :
  cached_request Stream loads DateTuple parsedate_tz timegm self request_url
    request_headers now cache
  = (cache', Returned (Some resp)) →
  cache' = cache
  ∧ ∃ key data,
      cache_url request_url = Returned key
      ∧ cache !! key = Some data
      ∧ loads request_headers (Some data) = Some resp.
Proof.
  intros Hrun.
  destruct (cached_request_cases self request_url request_headers cache)
    as [(e' & Hurl & Hall)
       | (key & Hurl & [Hall | (data & resp' & Hdata & Hloads &
            [Hall | [Hall | [(d & _ & _ & Hall) | (d & t & _ & _ & Hall)]]])])];
    rewrite Hall in Hrun; try done.
  - injection Hrun as <- <-. split; [done|]. by exists key, data.
  - destruct (gt_age _ _); [|done].
    injection Hrun as <- <-. split; [done|]. by exists key, data.
Qed.





End LookupFurther.

(** ** The write decision, further *)

Section StoreFurther.

Context (Stream : Type).
Context (dumps : gmap string string → gmap string string → Z → string →
                 string → option bytes → bytes).

Lemma max_age_positive_total (h : gmap string string) :
  max_age_positive (parse_cache_control h) = Returned (positive_max_age h).
Proof.
  unfold max_age_positive, positive_max_age.
  destruct (parse_cache_control h !! "max-age") as [[n|]|] eqn:Hma.
  - assert (cc_has "max-age" (parse_cache_control h) = true) as ->; [|done].
    apply bool_decide_eq_true_2. eauto.
  - by apply parse_directives_required_int in Hma.
  - assert (cc_has "max-age" (parse_cache_control h) = false) as ->; [|done].
    apply bool_decide_eq_false_2. rewrite Hma. by intros [? ?].
Qed.


(** X10: a response with a body whose [Content-Length] is a decimal
    number other than the length of the body is not stored, whatever
    else it carries: the backend is left as it is. *)
Theorem cache_response_length_mismatch self request_url request_headers
  response_headers response_status_code response_reason_phrase
  response_http_version body cache v n :
  response_status_code ∈ cacheable_status_codes self →
  hget response_headers "content-length" = Some v →
  PyStr.isdigit v = true →
  PyStr.int v = Some n →
  n ≠ Z.of_nat (length body) →
  cache_response Stream dumps self request_url request_headers
    response_headers response_status_code response_reason_phrase
    response_http_version (Some body) cache
  = (cache, Returned tt).
Proof.
  intros Hstatus Hv Hd Hn Hne. unfold cache_response, status_in.
  rewrite (bool_decide_eq_true_2 _ Hstatus). simpl.
  unfold hmem, hitem. rewrite Hv, bool_decide_eq_true_2 by eauto. simpl.
  rewrite Hd, Hn. apply Z.eqb_neq in Hne. by rewrite Hne.
Qed.

(** X11: a [Content-Length] that [isdigit] accepts and [int] does not
    (a superscript digit) makes [cache_response] raise [ValueError],
    with the backend left as it is. *)
Theorem cache_response_length_not_decimal self request_url request_headers
  response_headers response_status_code response_reason_phrase
  response_http_version body cache v :
  response_status_code ∈ cacheable_status_codes self →
  hget response_headers "content-length" = Some v →
  PyStr.isdigit v = true →
  PyStr.int v = None →
  cache_response Stream dumps self request_url request_headers
    response_headers response_status_code response_reason_phrase
    response_http_version (Some body) cache
  = (cache, Raised ValueError).
Proof.
  intros Hstatus Hv Hd Hn. unfold cache_response, status_in.
  rewrite (bool_decide_eq_true_2 _ Hstatus). simpl.
  unfold hmem, hitem. rewrite Hv, bool_decide_eq_true_2 by eauto. simpl.
  by rewrite Hd, Hn.
Qed.

(** X12: the rule of the store decision, as the code has it.  A
    response that has reached the decision is stored with its body when
    etag caching is on and it has an [ETag]; else with an empty body
    when its status is 301 or 308; else with its body when it has a
    [Date] and either a [max-age] above 0 or an [Expires] header; else
    it is not stored. *)
Theorem cache_response_store_rule self request_url request_headers
  response_headers response_status_code response_reason_phrase
  response_http_version response_body cache key :
  passes_checks self request_url request_headers response_headers
    response_status_code response_body key →
  let put (b : option bytes) :=
    (<[key := dumps request_headers response_headers response_status_code
                response_http_version response_reason_phrase b]> cache,
     Returned tt) in
  cache_response Stream dumps self request_url request_headers
    response_headers response_status_code response_reason_phrase
    response_http_version response_body cache
  = if cache_etags self && hmem "etag" response_headers
    then put response_body
    else if bool_decide (response_status_code = 301
                         ∨ response_status_code = 308)
    then put (Some [])
    else if hmem "date" response_headers
            && (positive_max_age response_headers
                || hmem "expires" response_headers)
    then put response_body
    else (cache, Returned tt).
Proof.
  intros Hpass put.
  rewrite (cache_response_decision _ _ _ _ _ _ _ _ _ _ _ _ Hpass). cbv zeta.
  rewrite max_age_positive_total.
  assert (status_in response_status_code PERMANENT_REDIRECT_STATUSES
          = bool_decide (response_status_code = 301
                         ∨ response_status_code = 308)) as ->.
  { unfold status_in, PERMANENT_REDIRECT_STATUSES. apply bool_decide_ext.
    rewrite !elem_of_cons, elem_of_nil. tauto. }
  destruct (cache_etags self && hmem "etag" response_headers); [done|].
  destruct (bool_decide _); [done|].
  destruct (hmem "date" response_headers); [|done].
  destruct (positive_max_age response_headers); [done|].
  by destruct (hmem "expires" response_headers).
Qed.


(** X13: whatever it is given, [cache_response] leaves the backend as
    it is, or deletes the entry under the request's key, or puts there
    the serialization of this very request and response (with the body
    it was given or an empty one); the entries under all other keys are
    unchanged. *)
Theorem cache_response_frame self request_url request_headers
  response_headers response_status_code response_reason_phrase
  response_http_version response_body cache :
  let cache' :=
    fst (cache_response Stream dumps self request_url request_headers
           response_headers response_status_code response_reason_phrase
           response_http_version response_body cache) in
  (cache' = cache
   ∨ ∃ key, cache_url request_url = Returned key
       ∧ (cache' = delete key cache
          ∨ ∃ b, (b = response_body ∨ b = Some [])
              ∧ cache' =
                  <[key := dumps request_headers response_headers
                             response_status_code response_http_version
                             response_reason_phrase b]> cache))
  ∧ (∀ k, cache_url request_url ≠ Returned k → cache' !! k = cache !! k).
Proof.
  intros cache'.
  assert (cache' = cache
          ∨ ∃ key, cache_url request_url = Returned key
              ∧ (cache' = delete key cache
                 ∨ ∃ b, (b = response_body ∨ b = Some [])
                     ∧ cache' =
                         <[key := dumps request_headers response_headers
                                    response_status_code response_http_version
                                    response_reason_phrase b]> cache))
    as Hshape.
  { subst cache'. unfold cache_response, cache_delete, cache_set.
    destruct (negb _); [by destruct (load_name _ _); left|].
    destruct (content_length_differs _ _) as [[]|]; [by left| |by left].
    destruct (cache_url request_url) as [key|e]; [|by left].
    cbv zeta.
    repeat (match goal with
            | |- context [match ?x with _ => _ end] => destruct x
            end; simpl; try (by left);
            try (right; exists key; split; [done|]; by left);
            try (right; exists key; split; [done|]; right; eexists;
                 split; [|reflexivity]; by eauto)). }
  split; [done|].
  intros k Hk.
  destruct Hshape as [-> | (key & Hkey & [-> | (b & _ & ->)])]; [done| |].
  - apply lookup_delete_ne. congruence.
  - apply lookup_insert_ne. congruence.
Qed.


(** X20: a response whose [Vary] header has a [*] anywhere in its
    value is not stored, even with an [ETag], a permanent-redirect
    status or a [max-age]: once the earlier checks are passed, the
    backend is left as it is. *)
Theorem cache_response_vary_star self request_url request_headers
  response_headers response_status_code response_reason_phrase
  response_http_version response_body cache key vary :
  response_status_code ∈ cacheable_status_codes self →
  content_length_differs response_body response_headers = Returned false →
  cache_url request_url = Returned key →
  parse_cache_control request_headers !! "no-store" = None →
  parse_cache_control response_headers !! "no-store" = None →
  hget response_headers "vary" = Some vary →
  PyStr.contains "*" vary = true →
  cache_response Stream dumps self request_url request_headers
    response_headers response_status_code response_reason_phrase
    response_http_version response_body cache
  = (cache, Returned tt).
Proof.
  intros Hstatus Hlen Hurl Hreq Hresp Hvary Hstar.
  unfold cache_response, status_in.
  rewrite (bool_decide_eq_true_2 _ Hstatus), Hlen, Hurl. cbv zeta.
  assert (∀ h, parse_cache_control h !! "no-store" = None →
               cc_has "no-store" (parse_cache_control h) = false) as Hno.
  { intros h Hh. apply bool_decide_eq_false_2. rewrite Hh. by intros [? ?]. }
  rewrite (Hno _ Hreq), (Hno _ Hresp). simpl.
  unfold hget_default. rewrite Hvary. simpl. by rewrite Hstar.
Qed.

End StoreFurther.

(** ** Revalidation and composition, further *)

Section RevalidationFurther.

Context (Stream : Type) (read : Stream → bytes * Stream).
Context (loads : gmap string string → option bytes → option (Response Stream)).
Context (dumps : gmap string string → gmap string string → Z → string →
                 string → option bytes → bytes).
Context (DateTuple : Type) (parsedate_tz : string → option DateTuple).
Context (timegm : DateTuple → Z).

(** X15: [update_cached_response] writes under the request's key only
    and never removes an entry; when it returns no tuple (no entry that
    deserializes) or raises, the backend is as before. *)
Theorem update_cached_response_frame self request_url request_headers
  response_headers cache :
  let result :=
    update_cached_response Stream read loads dumps self request_url
      request_headers response_headers cache in
  (∀ k, cache_url request_url ≠ Returned k → fst result !! k = cache !! k)
  ∧ (∀ k, is_Some (cache !! k) → is_Some (fst result !! k))
  ∧ ((∀ entry, snd result ≠ Returned (Some entry)) → fst result = cache)
  ∧ (∀ key, cache_url request_url = Returned key →
            loads request_headers (cache !! key) = None →
            result = (cache, Returned None)).
Proof.
  intros result. subst result. unfold update_cached_response, cache_get.
  destruct (cache_url request_url) as [key|e] eqn:Hurl; simpl.
  2:{ repeat split; try done. }
  destruct (loads request_headers (cache !! key)) as [entry|] eqn:Hloads;
    simpl.
  2:{ repeat split; try done. }
  destruct (read (body Stream entry)) as [b rest]. simpl.
  unfold cache_set. repeat split.
  - intros k Hk. apply lookup_insert_ne. congruence.
  - intros k Hk. destruct (decide (key = k)) as [->|Hne].
    + rewrite lookup_insert_eq. eauto.
    + by rewrite lookup_insert_ne.
  - intros Hnone. by edestruct Hnone.
  - intros key' [= <-]. congruence.
Qed.

Lemma merged_headers_lookup_key cached response_headers k :
  normalized response_headers →
  merged_headers cached response_headers !! k =
    if decide (k = "content-length") then cached !! k
    else match response_headers !! k with
         | Some v => Some v
         | None => cached !! k
         end.
Proof.
  intros Hnorm. unfold merged_headers, hitems.
  assert (∀ kv, kv ∈ map_to_list response_headers →
                PyStr.lower (fst kv) = fst kv) as Hkeys.
  { intros [k' v'] Hin%elem_of_map_to_list. apply Hnorm. by exists v'. }
  destruct (decide (k = "content-length")) as [Hcl|Hcl].
  - apply hupdate_lookup_notin.
    intros kv [Hex _]%list_elem_of_filter Hlow. apply Hex.
    rewrite Hlow, Hcl. unfold excluded_headers. by left.
  - destruct (response_headers !! k) as [v|] eqn:Hk.
    + apply hupdate_lookup_in.
      * apply (sublist_NoDup _ ((map_to_list response_headers).*1));
          [apply NoDup_fst_map_to_list|].
        apply fmap_sublist, sublist_filter.
      * intros kv [_ Hin]%list_elem_of_filter. by apply Hkeys.
      * apply list_elem_of_filter. split.
        -- simpl. rewrite (Hnorm k) by (by exists v).
           unfold excluded_headers.
           rewrite not_elem_of_cons. split; [done|apply not_elem_of_nil].
        -- by apply elem_of_map_to_list.
    + apply hupdate_lookup_notin.
      intros [k' v'] [_ Hin]%list_elem_of_filter Hlow.
      rewrite (Hkeys _ Hin) in Hlow. simpl in Hlow. subst k'.
      apply elem_of_map_to_list in Hin. congruence.
Qed.

(** X16: the merge of [update_cached_response] is idempotent: folding
    the headers of the same 304 response in a second time changes
    nothing; and the stored [Content-Length] is never touched. *)
Theorem merged_headers_idempotent (cached response_headers : gmap string string) :
  normalized response_headers →
  merged_headers (merged_headers cached response_headers) response_headers
  = merged_headers cached response_headers
  ∧ merged_headers cached response_headers !! "content-length"
    = cached !! "content-length".
Proof.
  intros Hnorm. split.
  - apply map_eq. intros k.
    rewrite (merged_headers_lookup_key _ _ k Hnorm).
    destruct (decide (k = "content-length")) as [Hcl|Hcl].
    + rewrite (merged_headers_lookup_key _ _ k Hnorm).
      by rewrite decide_True.
    + destruct (response_headers !! k) as [v|] eqn:Hk.
      * rewrite (merged_headers_lookup_key _ _ k Hnorm).
        by rewrite decide_False, Hk.
      * done.
  - by rewrite (merged_headers_lookup_key _ _ _ Hnorm).
Qed.

(** X17: with a URL that lacks a scheme or an authority,
    [cached_request] and [update_cached_response] raise the exception
    of [cache_url] and leave the backend as it is; so does
    [cache_response] once the status is cacheable and the length check
    is passed. *)
Theorem relative_url_raises self request_url request_headers
  response_headers now cache :
  PyStr.truthy (scheme request_url) = false
  ∨ PyStr.truthy (authority request_url) = false →
  let error :=
    Exception (String.append "Only absolute URIs are allowed. uri = "
                 (url_str request_url)) in
  cached_request Stream loads DateTuple parsedate_tz timegm self request_url
    request_headers now cache = (cache, Raised error)
  ∧ update_cached_response Stream read loads dumps self request_url
      request_headers response_headers cache = (cache, Raised error)
  ∧ (∀ response_status_code reason version response_body,
        response_status_code ∈ cacheable_status_codes self →
        content_length_differs response_body response_headers
          = Returned false →
        cache_response Stream dumps self request_url request_headers
          response_headers response_status_code reason version response_body
          cache = (cache, Raised error)).
Proof.
  intros Hrel error.
  assert (cache_url request_url = Raised error) as Hurl.
  { unfold cache_url. by destruct Hrel as [-> | ->]; rewrite ?orb_true_r. }
  repeat split.
  - unfold cached_request. by rewrite Hurl.
  - unfold update_cached_response. by rewrite Hurl.
  - intros code reason version response_body Hstatus Hlen.
    unfold cache_response, status_in.
    by rewrite (bool_decide_eq_true_2 _ Hstatus), Hlen, Hurl.
Qed.

(** X18: a permanent redirect that has reached the store decision is
    stored (with its body when the [ETag] rule applies, with an empty
    body otherwise), and from then on every lookup of the URL that allows the
    cache is answered with what the serializer reads back, at any time
    and with any request headers, provided the serializer gives back a
    response of the same status. *)
Theorem permanent_redirect_round_trip self request_url request_headers
  response_headers response_status_code response_reason_phrase
  response_http_version response_body cache key :
  passes_checks self request_url request_headers response_headers
    response_status_code response_body key →
  response_status_code = 301 ∨ response_status_code = 308 →
  let b :=
    if cache_etags self && hmem "etag" response_headers
    then response_body else Some [] in
  let data :=
    dumps request_headers response_headers response_status_code
      response_http_version response_reason_phrase b in
  cache_response Stream dumps self request_url request_headers
    response_headers response_status_code response_reason_phrase
    response_http_version response_body cache
  = (<[key := data]> cache, Returned tt)
  ∧ ∀ self' request_headers' now resp,
      allows_cache request_headers' →
      loads request_headers' (Some data) = Some resp →
      status Stream resp = response_status_code →
      cached_request Stream loads DateTuple parsedate_tz timegm self'
        request_url request_headers' now (<[key := data]> cache)
      = (<[key := data]> cache, Returned (Some resp)).
Proof.
  intros Hpass Hstatus.
  assert (status_in response_status_code PERMANENT_REDIRECT_STATUSES = true)
    as Hperm.
  { apply bool_decide_eq_true_2. unfold PERMANENT_REDIRECT_STATUSES.
    rewrite !elem_of_cons. tauto. }
  intros b data. subst b data. split.
  - rewrite (cache_response_decision _ _ _ _ _ _ _ _ _ _ _ _ Hpass).
    cbv zeta. rewrite Hperm.
    by destruct (cache_etags self && hmem "etag" response_headers).
  - intros self' request_headers' now resp Hallow Hloads Hsame.
    rewrite (cached_request_reaches_entry _ _ _ _ _ _ _ _ _ _ _ _
               (pc_url _ _ _ _ _ _ _ Hpass) Hallow (lookup_insert_eq _ _ _)).
    by rewrite Hloads, Hsame, Hperm.
Qed.

End RevalidationFurther.

(** ** The disk-backed cache *)

Section DiskCacheLaws.

Context (Store : Type).
Context (dc_get : Store → string → option bytes).
Context (dc_setitem : string → bytes → Store → Store).
Context (dc_pop : string → Store → Store).
Context (Response VaryData : Type).
Context (loads : option bytes → option Response * option VaryData).
Context (dumps : Response → VaryData → bytes → bytes).

(** X19: over a store that behaves as a map (an item set is the item
    got; [pop] removes the item, and does nothing for a key without
    one; other keys are not affected), the adapter gives back under a
    key what the serializer reads from what it wrote; [delete] followed
    by [get] gives what the serializer makes of [None]; and neither
    [set] nor [delete] changes what [get] gives for another key. *)
Theorem disk_cache_get_set_delete :
  (∀ c k v, dc_get (dc_setitem k v c) k = Some v) →
  (∀ c k k' v, k ≠ k' → dc_get (dc_setitem k v c) k' = dc_get c k') →
  (∀ c k, dc_get (dc_pop k c) k = None) →
  (∀ c k k', k ≠ k' → dc_get (dc_pop k c) k' = dc_get c k') →
  ∀ cache key response vary body,
    let get := SyncDiskCacheCache.get Store dc_get Response VaryData loads in
    let set :=
      SyncDiskCacheCache.set Store dc_setitem Response VaryData dumps in
    let delete := SyncDiskCacheCache.delete Store dc_pop in
    get key (set key response vary body cache)
      = loads (Some (dumps response vary body))
    ∧ get key (delete key cache) = loads None
    ∧ get key (delete key (set key response vary body cache)) = loads None
    ∧ ∀ key', key ≠ key' →
        get key' (set key response vary body cache) = get key' cache
        ∧ get key' (delete key cache) = get key' cache.
Proof.
  intros Hset Hset_ne Hpop Hpop_ne cache key response vary body get set delete.
  subst get set delete.
  unfold SyncDiskCacheCache.get, SyncDiskCacheCache.set,
    SyncDiskCacheCache.delete.
  rewrite Hset, !Hpop. repeat split; try done.
  - by rewrite Hset_ne.
  - by rewrite Hpop_ne.
Qed.

End DiskCacheLaws.

(** ** The controller on concrete exchanges *)

Import Sample Examples.

Lemma loads_fresh_entry h : loads h (Some fresh_entry) = Some fresh_response.
Proof. vm_compute. reflexivity. Qed.

Lemma loads_moved_entry h : loads h (Some moved_entry) = Some moved_response.
Proof. vm_compute. reflexivity. Qed.

Lemma parse_T_date : timegm <$> parsedate_tz T_date = Some T.
Proof. vm_compute. reflexivity. Qed.

Lemma allows_cache_empty : allows_cache ∅.
Proof. by apply allows_cache_absent. Qed.

(** A set of headers is normalized when this check succeeds. *)
Lemma normalized_check (h : gmap string string) :
  forallb (fun kv => String.eqb (PyStr.lower (fst kv)) (fst kv))
    (map_to_list h) = true →
  normalized h.
Proof.
  intros Hall k [v Hk]. rewrite forallb_forall in Hall.
  apply elem_of_map_to_list, list_elem_of_In, Hall in Hk.
  by apply String.eqb_eq in Hk.
Qed.

(** What does decide a hit: a request that itself carries [Date: T] and
    [max-age=60] is served the stored entry at [T + 30], and at
    [T + 90] it is not, and the entry is purged. *)
Example cached_request_fresh_by_request_headers :
  let request_headers :=
    headers_of [("Date", T_date); ("Cache-Control", "max-age=60")] in
  Sample.cached_request controller page request_headers (inject_Z (T + 30))
    {[ page_key := fresh_entry ]}
  = ({[ page_key := fresh_entry ]}, Returned (Some fresh_response))
  ∧ Sample.cached_request controller page request_headers (inject_Z (T + 90))
      {[ page_key := fresh_entry ]}
    = (∅, Returned None).
Proof. split; vm_compute; reflexivity. Qed.

(** On a backend that holds [fresh_entry], with its [ETag], the
    conditional headers are not produced. *)
Example conditional_headers_of_stored_entry :
  Sample.conditional_headers controller page {[ page_key := fresh_entry ]}
  = ({[ page_key := fresh_entry ]}, Raised (NameError "request_headers")).
Proof. reflexivity. Qed.

(** The stored redirect is served a year after [T] to a request without
    any header. *)
Lemma cached_request_permanent_redirect_witness :
  Sample.cached_request controller page ∅ (inject_Z (T + 31536000))
    {[ page_key := moved_entry ]}
  = ({[ page_key := moved_entry ]}, Returned (Some moved_response)).
Proof.
  apply cached_request_permanent_redirect
    with (key := page_key) (data := moved_entry).
  - reflexivity.
  - exact allows_cache_empty.
  - apply lookup_singleton_eq.
  - apply loads_moved_entry.
  - left. reflexivity.
Defined.

(** A lookup of [page] leaves the entry of another key in place. *)
Lemma cached_request_frame_witness :
  fst (Sample.cached_request controller page ∅ (inject_Z (T + 90))
         (<[ page_key := fresh_entry ]> {[ "http://example.com/other" := hello ]}))
    !! "http://example.com/other" = Some hello.
Proof.
  destruct (cached_request_frame Sample.Stream Sample.loads Sample.DateTuple
              Sample.parsedate_tz Sample.timegm controller page ∅
              (inject_Z (T + 90))
              (<[ page_key := fresh_entry ]>
                 {[ "http://example.com/other" := hello ]}))
    as (_ & _ & Hother).
  unfold Sample.cached_request. rewrite Hother.
  - reflexivity.
  - discriminate.
Defined.

(** The stored response has [Date] [T] and [max-age=60]; a request
    without headers at [T + 30] does not get it, and the entry is
    purged. *)
Lemma cached_request_ignores_stored_freshness_witness :
  Sample.cached_request controller page ∅ (inject_Z (T + 30))
    {[ page_key := fresh_entry ]}
  = (∅, Returned None).
Proof.
  etrans.
  - apply cached_request_ignores_stored_freshness
      with (key := page_key) (data := fresh_entry) (resp := fresh_response).
    + reflexivity.
    + exact allows_cache_empty.
    + apply lookup_singleton_eq.
    + apply loads_fresh_entry.
    + reflexivity.
    + reflexivity.
  - vm_compute. reflexivity.
Defined.

(** The stored response has an [ETag]; a request that carries a [Date]
    header finds it stale, and the entry is purged. *)
Lemma cached_request_stale_purges_entry_with_etag_witness :
  Sample.cached_request controller page (headers_of [("Date", T_date)])
    (inject_Z (T + 90)) {[ page_key := fresh_entry ]}
  = (∅, Returned None).
Proof.
  etrans.
  - apply cached_request_stale_purges_entry_with_etag
      with (key := page_key) (data := fresh_entry) (resp := fresh_response)
           (d := T_date) (t := (2026, 11, 3, 22, 8, 0)).
    + reflexivity.
    + apply lookup_singleton_eq.
    + apply loads_fresh_entry.
    + reflexivity.
    + reflexivity.
    + reflexivity.
    + vm_compute. reflexivity.
    + reflexivity.
    + reflexivity.
    + reflexivity.
  - vm_compute. reflexivity.
Defined.

(** A 404 response with an [ETag] and [max-age]: nothing is stored, and
    the call raises. *)
Lemma cache_response_uncacheable_status_raises_witness :
  Sample.cache_response controller page ∅ fresh_headers 404 "Not Found"
    "HTTP/1.1" (Some hello) ∅
  = (∅, Raised (NameError "response")).
Proof.
  apply cache_response_uncacheable_status_raises.
  apply (bool_decide_eq_false_1 _). reflexivity.
Defined.

(** A 200 response with [Date] and an empty [Expires] is stored. *)
Lemma cache_response_stores_empty_expires_witness :
  Sample.cache_response controller page ∅ empty_expires_headers 200 "OK"
    "HTTP/1.1" (Some hello) ∅
  = ({[ page_key :=
          Sample.dumps ∅ empty_expires_headers 200 "HTTP/1.1" "OK" (Some hello) ]},
     Returned tt).
Proof.
  apply cache_response_stores_empty_expires; try reflexivity; try discriminate.
  split; try reflexivity.
  apply (bool_decide_eq_true_1 _). reflexivity.
Defined.

(** C8 (as stated, refuted): the response says [no-store], but its
    declared length, 7, is not that of its body, so [cache_response]
    returns before it looks at the directives: the entry stored under
    the key is still there. *)
Lemma no_store_after_length_mismatch_keeps_entry :
  cc_has "no-store" (parse_cache_control no_store_short_headers) = true
  ∧ Sample.cache_response controller page ∅ no_store_short_headers 200 "OK"
      "HTTP/1.1" (Some hello) {[ page_key := fresh_entry ]}
    = ({[ page_key := fresh_entry ]}, Returned tt).
Proof. split; vm_compute; reflexivity. Qed.

(** A 200 response with [no-store]: the entry under the key goes, the
    response is not stored. *)
Lemma cache_response_no_store_witness :
  Sample.cache_response controller page ∅ no_store_headers 200 "OK"
    "HTTP/1.1" (Some hello) {[ page_key := fresh_entry ]}
  = (∅, Returned tt).
Proof.
  destruct (cache_response_no_store Sample.Stream Sample.dumps controller
              page ∅ no_store_headers 200 "OK" "HTTP/1.1" (Some hello)
              {[ page_key := fresh_entry ]} page_key) as [Hresult _].
  - apply (bool_decide_eq_true_1 _). reflexivity.
  - reflexivity.
  - reflexivity.
  - right. reflexivity.
  - etrans; [exact Hresult|]. vm_compute. reflexivity.
Defined.


(** ** Further concrete exchanges *)

Import Exchanges.


Lemma allows_cache_undated : allows_cache undated_request.
Proof. by apply allows_cache_absent. Qed.


Lemma cached_request_bypass_witness :
  Sample.cached_request controller page no_cache_request (inject_Z T)
    page_cache
  = (page_cache, Returned None).
Proof.
  apply cached_request_bypass with (key := page_key).
  - reflexivity.
  - left. exists None. reflexivity.
Defined.

Lemma cached_request_unreadable_date_witness :
  Sample.cached_request controller page undated_request (inject_Z T)
    page_cache
  = (page_cache, Raised TypeError).
Proof.
  apply cached_request_unreadable_date
    with (key := page_key) (data := fresh_entry) (resp := fresh_response)
         (d := "yesterday").
  - reflexivity.
  - exact allows_cache_undated.
  - apply lookup_singleton_eq.
  - apply loads_fresh_entry.
  - reflexivity.
  - reflexivity.
  - reflexivity.
Defined.


Lemma cached_request_hit_origin_witness :
  ∃ key data,
    cache_url page = Returned key
    ∧ page_cache !! key = Some data
    ∧ Sample.loads dated_request (Some data) = Some fresh_response.
Proof.
  destruct (cached_request_hit_origin Sample.Stream Sample.loads
              Sample.DateTuple Sample.parsedate_tz Sample.timegm controller
              page dated_request (inject_Z (T + 30)) page_cache page_cache
              fresh_response) as [_ Horigin].
  - vm_compute. reflexivity.
  - exact Horigin.
Defined.


Lemma cache_response_length_mismatch_witness :
  Sample.cache_response controller page ∅ long_headers 200 "OK" "HTTP/1.1"
    (Some hello) ∅
  = (∅, Returned tt).
Proof.
  apply cache_response_length_mismatch with (v := "7") (n := 7).
  - apply (bool_decide_eq_true_1 _). reflexivity.
  - reflexivity.
  - reflexivity.
  - reflexivity.
  - discriminate.
Defined.

Lemma cache_response_length_not_decimal_witness :
  Sample.cache_response controller page ∅ superscript_headers 200 "OK"
    "HTTP/1.1" (Some hello) ∅
  = (∅, Raised ValueError).
Proof.
  apply cache_response_length_not_decimal with (v := superscript_two).
  - apply (bool_decide_eq_true_1 _). reflexivity.
  - reflexivity.
  - reflexivity.
  - reflexivity.
Defined.

Lemma passes_checks_max_age :
  passes_checks controller page ∅ max_age_headers 200 (Some hello) page_key.
Proof.
  split; try reflexivity. apply (bool_decide_eq_true_1 _). reflexivity.
Qed.

Lemma passes_checks_moved :
  passes_checks controller page ∅ moved_headers 301 (Some hello) page_key.
Proof.
  split; try reflexivity. apply (bool_decide_eq_true_1 _). reflexivity.
Qed.

(** A 200 response with [Date] and [max-age=60] is stored with its
    body. *)
Lemma cache_response_store_rule_witness :
  Sample.cache_response controller page ∅ max_age_headers 200 "OK" "HTTP/1.1"
    (Some hello) ∅
  = ({[ page_key :=
          Sample.dumps ∅ max_age_headers 200 "HTTP/1.1" "OK" (Some hello) ]},
     Returned tt).
Proof.
  etrans.
  - apply cache_response_store_rule with (key := page_key).
    exact passes_checks_max_age.
  - reflexivity.
Defined.

Lemma cache_response_frame_witness :
  fst (Sample.cache_response controller page ∅ max_age_headers 200 "OK"
         "HTTP/1.1" (Some hello) {[ "http://example.com/other" := hello ]})
    !! "http://example.com/other" = Some hello.
Proof.
  destruct (cache_response_frame Sample.Stream Sample.dumps controller page ∅
              max_age_headers 200 "OK" "HTTP/1.1" (Some hello)
              {[ "http://example.com/other" := hello ]}) as [_ Hother].
  unfold Sample.cache_response. rewrite Hother.
  - reflexivity.
  - discriminate.
Defined.


(** With no entry under the key, the update returns no tuple. *)
Lemma update_cached_response_frame_witness :
  Sample.update_cached_response controller page ∅ not_modified_headers ∅
  = (∅, Returned None).
Proof.
  destruct (update_cached_response_frame Sample.Stream Sample.read
              Sample.loads Sample.dumps controller page ∅
              not_modified_headers ∅) as (_ & _ & _ & Hnone).
  apply (Hnone page_key); reflexivity.
Defined.

Lemma merged_headers_idempotent_witness :
  merged_headers (merged_headers fresh_headers not_modified_headers)
    not_modified_headers
  = merged_headers fresh_headers not_modified_headers.
Proof.
  apply merged_headers_idempotent.
  apply normalized_check. vm_compute. reflexivity.
Defined.

Lemma relative_url_raises_witness :
  Sample.cached_request controller relative ∅ (inject_Z T) page_cache
  = (page_cache,
     Raised (Exception "Only absolute URIs are allowed. uri = /page")).
Proof.
  destruct (relative_url_raises Sample.Stream Sample.read Sample.loads
              Sample.dumps Sample.DateTuple Sample.parsedate_tz Sample.timegm
              controller relative ∅ ∅ (inject_Z T) page_cache) as [Hlookup _].
  - left. reflexivity.
  - exact Hlookup.
Defined.

(** The 301 response is stored with an empty body and served a year
    later. *)
Lemma permanent_redirect_round_trip_witness :
  Sample.cached_request controller page ∅ (inject_Z (T + 31536000))
    (fst (Sample.cache_response controller page ∅ moved_headers 301
            "Moved Permanently" "HTTP/1.1" (Some hello) ∅))
  = ({[ page_key := moved_entry ]}, Returned (Some moved_response)).
Proof.
  destruct (permanent_redirect_round_trip Sample.Stream Sample.loads
              Sample.dumps Sample.DateTuple Sample.parsedate_tz Sample.timegm
              controller page ∅ moved_headers 301 "Moved Permanently"
              "HTTP/1.1" (Some hello) ∅ page_key passes_checks_moved)
    as [Hstore Hlookup]; [by left|].
  unfold Sample.cache_response. rewrite Hstore. simpl fst.
  apply (Hlookup controller ∅ (inject_Z (T + 31536000)) moved_response).
  - exact allows_cache_empty.
  - apply loads_moved_entry.
  - reflexivity.
Defined.

Lemma disk_cache_get_set_delete_witness :
  SyncDiskCacheCache.get (gmap string bytes) map_get bytes unit body_loads
    "k"
    (SyncDiskCacheCache.set (gmap string bytes) map_setitem bytes unit
       body_dumps "k" hello tt hello ∅)
  = (Some hello, Some tt).
Proof.
  destruct (disk_cache_get_set_delete (gmap string bytes) map_get map_setitem
              map_pop bytes unit body_loads body_dumps) with
    (cache := (∅ : gmap string bytes)) (key := "k") (response := hello)
    (vary := tt) (body := hello) as [Hget _].
  - intros c k v. apply lookup_insert_eq.
  - intros c k k' v Hne. by apply lookup_insert_ne.
  - intros c k. apply lookup_delete_eq.
  - intros c k k' Hne. by apply lookup_delete_ne.
  - exact Hget.
Defined.

Lemma cache_response_vary_star_witness :
  Sample.cache_response controller page ∅ vary_star_headers 200 "OK"
    "HTTP/1.1" (Some hello) ∅
  = (∅, Returned tt).
Proof.
  apply cache_response_vary_star with (key := page_key) (vary := "Accept, *");
    try reflexivity.
  apply (bool_decide_eq_true_1 _). reflexivity.
Defined.
